(** * lab1: a minimal RPC over UDP -- the server and client of
    [lab1/server/internal/app/run.go]

    The development embeds the request dispatcher ([ParseInput],
    [ExecuteMethod], the method handlers, [handleMessage]) and the client
    call loop ([generateRequestID], [Call]) as Rocq functions, and settles
    the properties stated about them.

    Conventions.
    - A Go [string] is a byte string: Rocq's [string] (a list of 8-bit
      [ascii]).  A [[]byte] buffer is a [list byte].
    - A Go [float64] is Rocq's primitive binary64 [float]; [int], [int64]
      and [rune] values are [Z].
    - An [interface{}] is [option dyn]: [None] is the nil interface,
      [Some d] a value with its dynamic type.
    - A Go [error] is [option string]: [None] is nil, [Some msg] an error
      whose [Error()] text is [msg].
    - [encoding/json] and [time.Duration.String] are library code, not part
      of the repository: they are parameters of the sections that use
      them.  The conversions between strings and rune slices are part of
      the Go language; module [Utf8] transcribes them. *)

From Stdlib Require Import ZArith Lia ZifyBool List String Ascii.
From Stdlib.Strings Require Import Byte.
From Stdlib Require Import Floats.PrimFloat.
From stdpp Require Import gmap strings list pretty.

Set Default Proof Using "Type".
Local Open Scope Z_scope.

(** ** Go values *)

(** The dynamic values an [interface{}] of this program can hold: what
    [encoding/json] stores when it decodes into [interface{}] (float64,
    string, bool, slice, map), and the [int64] that [getTime] returns. *)
#[warnings="-register-all"]
Inductive dyn : Type :=
| DFloat (f : float)
| DInt64 (z : Z)
| DString (s : string)
| DBool (b : bool)
| DSlice (xs : list (option dyn))
| DMap (m : option (gmap string (option dyn))).

Definition iface : Type := option dyn.
Definition error : Type := option string.
Definition bytes : Type := list byte.

(** A [map[string]interface{}]: [None] is the nil map. *)
Definition gomap : Type := option (gmap string iface).

(** [m[k]]: indexing a map (nil or not) yields the zero value, the nil
    interface, for a missing key. *)
Definition map_index (m : gomap) (k : string) : iface :=
  match m with
  | None => None
  | Some g => default None (g !! k)
  end.

(** [v.(float64)] in its two-result form. *)
Definition assert_float64 (v : iface) : float * bool :=
  match v with
  | Some (DFloat f) => (f, true)
  | _ => (0%float, false)
  end.

(** [v.(string)] in its two-result form. *)
Definition assert_string (v : iface) : string * bool :=
  match v with
  | Some (DString s) => (s, true)
  | _ => (""%string, false)
  end.

(** ** Strings and rune slices (Go's conversions) *)

Module Utf8.

Definition runeError : Z := 0xFFFD.
Definition runeSelf : Z := 0x80.
Definition maxRune : Z := 0x10FFFF.
Definition surrogateMin : Z := 0xD800.
Definition surrogateMax : Z := 0xDFFF.
Definition t2 : Z := 0xC0.
Definition t3 : Z := 0xE0.
Definition t4 : Z := 0xF0.
Definition t5 : Z := 0xF8.
Definition tx : Z := 0x80.
Definition maskx : Z := 0x3F.
Definition mask2 : Z := 0x1F.
Definition mask3 : Z := 0x0F.
Definition mask4 : Z := 0x07.
Definition rune1Max : Z := 0x7F.
Definition rune2Max : Z := 0x7FF.
Definition rune3Max : Z := 0xFFFF.
Definition locb : Z := 0x80.
Definition hicb : Z := 0xBF.

(** [s[i]] as a number, and the conversion [byte(x)] (the low 8 bits). *)
Definition ord (c : ascii) : Z := Z.of_N (N_of_ascii c).
Definition chr (x : Z) : ascii := ascii_of_N (Z.to_N (Z.land x 0xFF)).

Definition is_cont (b : Z) : bool := (locb <=? b) && (b <=? hicb).

(** The runtime's [decoderune] at the head of [s]: the rune and the number
    of bytes it takes.  Every malformed sequence decodes to [runeError]
    and takes one byte. *)
Definition decoderune (s : string) : Z * nat :=
  match s with
  | EmptyString => (runeError, 1%nat)
  | String c0 s1 =>
    let s0 := ord c0 in
    if (t2 <=? s0) && (s0 <? t3) then
      match s1 with
      | String c1 _ =>
        let r := Z.lor (Z.shiftl (Z.land s0 mask2) 6) (Z.land (ord c1) maskx) in
        if is_cont (ord c1) && (rune1Max <? r) then (r, 2%nat)
        else (runeError, 1%nat)
      | _ => (runeError, 1%nat)
      end
    else if (t3 <=? s0) && (s0 <? t4) then
      match s1 with
      | String c1 (String c2 _) =>
        let r := Z.lor (Z.lor (Z.shiftl (Z.land s0 mask3) 12)
                              (Z.shiftl (Z.land (ord c1) maskx) 6))
                       (Z.land (ord c2) maskx) in
        if is_cont (ord c1) && is_cont (ord c2) && (rune2Max <? r)
           && negb ((surrogateMin <=? r) && (r <=? surrogateMax))
        then (r, 3%nat)
        else (runeError, 1%nat)
      | _ => (runeError, 1%nat)
      end
    else if (t4 <=? s0) && (s0 <? t5) then
      match s1 with
      | String c1 (String c2 (String c3 _)) =>
        let r := Z.lor (Z.lor (Z.lor (Z.shiftl (Z.land s0 mask4) 18)
                                     (Z.shiftl (Z.land (ord c1) maskx) 12))
                              (Z.shiftl (Z.land (ord c2) maskx) 6))
                       (Z.land (ord c3) maskx) in
        if is_cont (ord c1) && is_cont (ord c2) && is_cont (ord c3)
           && (rune3Max <? r) && (r <=? maxRune)
        then (r, 4%nat)
        else (runeError, 1%nat)
      | _ => (runeError, 1%nat)
      end
    else (runeError, 1%nat)
  end.

(** [for _, r := range s]: a byte below [runeSelf] is its own rune, any
    other position is decoded by [decoderune].  [skip] counts the bytes of
    the current rune still to step over. *)
Fixpoint range_runes (skip : nat) (s : string) : list Z :=
  match s with
  | EmptyString => []
  | String c rest =>
    match skip with
    | S k => range_runes k rest
    | O =>
      let '(r, w) := if ord c <? runeSelf then (ord c, 1%nat) else decoderune s in
      r :: range_runes (w - 1) rest
    end
  end.

(** [[]rune(s)]. *)
Definition stringtoslicerune (s : string) : list Z := range_runes 0 s.

(** The runtime's [encoderune]: the bytes of one rune.  A rune outside the
    Unicode range or a surrogate half is written as [runeError]. *)
Definition encoderune (r : Z) : string :=
  let i := r mod 2 ^ 32 in
  if i <=? rune1Max then
    String (chr r) EmptyString
  else if i <=? rune2Max then
    String (chr (Z.lor t2 (Z.land (Z.shiftr r 6) 0xFF)))
   (String (chr (Z.lor tx (Z.land (Z.land r 0xFF) maskx))) EmptyString)
  else
    let bad := (maxRune <? i) || ((surrogateMin <=? i) && (i <=? surrogateMax)) in
    let r := if bad then runeError else r in
    if bad || (i <=? rune3Max) then
      String (chr (Z.lor t3 (Z.land (Z.shiftr r 12) 0xFF)))
     (String (chr (Z.lor tx (Z.land (Z.land (Z.shiftr r 6) 0xFF) maskx)))
     (String (chr (Z.lor tx (Z.land (Z.land r 0xFF) maskx))) EmptyString))
    else
      String (chr (Z.lor t4 (Z.land (Z.shiftr r 18) 0xFF)))
     (String (chr (Z.lor tx (Z.land (Z.land (Z.shiftr r 12) 0xFF) maskx)))
     (String (chr (Z.lor tx (Z.land (Z.land (Z.shiftr r 6) 0xFF) maskx)))
     (String (chr (Z.lor tx (Z.land (Z.land r 0xFF) maskx))) EmptyString))).

(** [string(runes)]. *)
Fixpoint slicerunetostring (rs : list Z) : string :=
  match rs with
  | [] => EmptyString
  | r :: rs' => encoderune r +:+ slicerunetostring rs'
  end.

(** A Unicode scalar value: a code point that is not a surrogate half. *)
Definition scalar (r : Z) : Prop :=
  0 <= r <= maxRune /\ ~ (surrogateMin <= r <= surrogateMax).

(** Well-formed UTF-8: the encoding of a sequence of scalar values. *)
Definition valid (s : string) : Prop :=
  exists rs, Forall scalar rs /\ s = slicerunetostring rs.

End Utf8.

(** ** The wire envelopes *)

(** The request's fields carry the prefix [req_]: [RequestID] names a field
    of both envelopes. *)
Record RPCRequest : Type := {
  req_RequestID : string;
  req_Method : string;
  req_Params : gomap;
  req_Timestamp : Z
}.

Record RPCResponse : Type := {
  RequestID : string;
  Result : iface;
  Error : string;
  Status : string
}.

(** A call that returns [(value, error)] where only one matters. *)
Inductive result (A : Type) : Type :=
| Ok (a : A)
| Err (msg : string).
Arguments Ok {A} a.
Arguments Err {A} msg.

(** ** The method handlers *)

Definition add (params : gomap) : iface * error :=
  let '(a, ok1) := assert_float64 (map_index params "a") in
  let '(b, ok2) := assert_float64 (map_index params "b") in
  if negb ok1 || negb ok2 then
    (None, Some "parameters 'a' and 'b' must be numbers"%string)
  else (Some (DFloat (a + b)%float), None).

Definition subtract (params : gomap) : iface * error :=
  let '(a, ok1) := assert_float64 (map_index params "a") in
  let '(b, ok2) := assert_float64 (map_index params "b") in
  if negb ok1 || negb ok2 then
    (None, Some "parameters 'a' and 'b' must be numbers"%string)
  else (Some (DFloat (a - b)%float), None).

Definition multiply (params : gomap) : iface * error :=
  let '(a, ok1) := assert_float64 (map_index params "a") in
  let '(b, ok2) := assert_float64 (map_index params "b") in
  if negb ok1 || negb ok2 then
    (None, Some "parameters 'a' and 'b' must be numbers"%string)
  else (Some (DFloat (a * b)%float), None).

Definition divide (params : gomap) : iface * error :=
  let '(a, ok1) := assert_float64 (map_index params "a") in
  let '(b, ok2) := assert_float64 (map_index params "b") in
  if negb ok1 || negb ok2 then
    (None, Some "parameters 'a' and 'b' must be numbers"%string)
  else if (b =? 0)%float then
    (None, Some "division by zero"%string)
  else (Some (DFloat (a / b)%float), None).

(** [now] is the reading of [time.Now().Unix()]. *)
Definition getTime (now : Z) (params : gomap) : iface * error :=
  (Some (DInt64 now), None).

(** [runes[i]] with Go's bounds check: [None] is an index out of range (a
    panic in Go). *)
Definition slice_get (runes : list Z) (i : Z) : option Z :=
  if 0 <=? i then runes !! Z.to_nat i else None.

(** The loop of [reverseString]: swap [runes[i]] and [runes[j]] while
    [i < j].  [fuel] bounds the number of iterations. *)
Fixpoint swap_loop (fuel : nat) (i j : Z) (runes : list Z) : option (list Z) :=
  match fuel with
  | O => Some runes
  | S fuel' =>
    if i <? j then
      match slice_get runes i, slice_get runes j with
      | Some x, Some y =>
        swap_loop fuel' (i + 1) (j - 1)
                  (<[Z.to_nat j := x]> (<[Z.to_nat i := y]> runes))
      | _, _ => None
      end
    else Some runes
  end.

Definition reverse_runes (runes : list Z) : option (list Z) :=
  swap_loop (length runes) 0 (Z.of_nat (length runes) - 1) runes.

Definition reverseString (params : gomap) : iface * error :=
  let '(str, ok) := assert_string (map_index params "s") in
  if negb ok then (None, Some "parameter 's' must be a string"%string)
  else
    match reverse_runes (Utf8.stringtoslicerune str) with
    | Some runes => (Some (DString (Utf8.slicerunetostring runes)), None)
    | None => (None, None) (* not reached: [reverse_runes_rev] *)
    end.

Definition echo (params : gomap) : iface * error :=
  (Some (DMap params), None).

(** ** The dispatcher *)

(** [requestLog] is a [sync.Map] keyed by request id. *)
Record Service : Type := { requestLog : gmap string bool }.

(** [sync.Map.LoadOrStore]: the value now under [k], whether it was there
    already, and the map afterwards. *)
Definition LoadOrStore (m : gmap string bool) (k : string) (v : bool)
  : bool * bool * gmap string bool :=
  match m !! k with
  | Some actual => (actual, true, m)
  | None => (v, false, <[k := v]> m)
  end.

(** What the goroutine started by [ExecuteMethod] does to the ledger once
    its five minutes have passed. *)
Definition expire (s : Service) (id : string) : Service :=
  {| requestLog := delete id (requestLog s) |}.

(** The observable steps of the server: a handler was entered, a datagram
    was handed to [WriteToUDP]. *)
Inductive Event : Type :=
| Invoked (method : string) (params : gomap)
| WriteToUDP (data : bytes).

(** The [switch req.Method] of [ExecuteMethod]. *)
Definition dispatch (now : Z) (req : RPCRequest) : list Event * (iface * error) :=
  let m := req_Method req in
  let p := req_Params req in
  if String.eqb m "add" then ([Invoked m p], add p)
  else if String.eqb m "subtract" then ([Invoked m p], subtract p)
  else if String.eqb m "multiply" then ([Invoked m p], multiply p)
  else if String.eqb m "divide" then ([Invoked m p], divide p)
  else if String.eqb m "get_time" then ([Invoked m p], getTime now p)
  else if String.eqb m "reverse_string" then ([Invoked m p], reverseString p)
  else if String.eqb m "echo" then ([Invoked m p], echo p)
  else ([], (None, Some ("unknown method: " +:+ m))).

(** [ExecuteMethod]: the service afterwards, the handlers entered, the
    response.  The random three-second sleep before the switch changes no
    value and is left out. *)
Definition ExecuteMethod (now : Z) (s : Service) (req : RPCRequest)
  : Service * list Event * RPCResponse :=
  let '(_, loaded, log') := LoadOrStore (requestLog s) (req_RequestID req) true in
  let s' := {| requestLog := log' |} in
  if loaded then
    (s', [],
     {| RequestID := req_RequestID req; Result := None;
        Error := "Request already processed"; Status := "DUPLICATE" |})
  else
    let '(evs, (result, err)) := dispatch now req in
    match err with
    | Some msg =>
      (s', evs,
       {| RequestID := req_RequestID req; Result := None;
          Error := msg; Status := "ERROR" |})
    | None =>
      (s', evs,
       {| RequestID := req_RequestID req; Result := result;
          Error := ""; Status := "OK" |})
    end.

Section Server.

(** [json.Unmarshal] into an [RPCRequest] and [json.Marshal] of an
    [RPCResponse]. *)
Variable json_Unmarshal_request : bytes -> result RPCRequest.
Variable json_Marshal_response : RPCResponse -> result bytes.

Definition ParseInput (buffer : bytes) : result RPCRequest :=
  match json_Unmarshal_request buffer with
  | Err err => Err ("failed to parse JSON: " +:+ err)
  | Ok req =>
    if String.eqb (req_RequestID req) "" then Err "request_id is required"
    else if String.eqb (req_Method req) "" then Err "method is required"
    else Ok req
  end.

(** The response [HandleErr] builds, and [HandleErr] itself: the marshal
    error is dropped, so a failed marshal sends the nil buffer. *)
Definition error_response (message err : string) : RPCResponse :=
  {| RequestID := ""; Result := None;
     Error := message +:+ ": " +:+ err; Status := "ERROR" |}.

Definition HandleErr (message err : string) : list Event :=
  let respData :=
    match json_Marshal_response (error_response message err) with
    | Ok data => data
    | Err _ => []
    end in
  [WriteToUDP respData].

(** [handleMessage] on one datagram, read at time [now]. *)
Definition handleMessage (now : Z) (buffer : bytes) : list Event :=
  let service := {| requestLog := ∅ |} in
  match ParseInput buffer with
  | Err err => HandleErr "error parsing inputs" err
  | Ok msg =>
    let '(_, evs, resp) := ExecuteMethod now service msg in
    match json_Marshal_response resp with
    | Err err => evs ++ HandleErr "error marshaling response" err
    | Ok respData => evs ++ [WriteToUDP respData]
    end
  end.

(** The loop of [Run]: one [handleMessage] per datagram read.  The
    goroutines share no state, so each datagram's events stand alone. *)
Definition Run (datagrams : list (Z * bytes)) : list (list Event) :=
  map (fun d => handleMessage (fst d) (snd d)) datagrams.

End Server.

(** ** The client *)

(** [fmt.Sprintf("%d-%d", time.Now().UnixNano(), rand.Intn(1000))]: [nano]
    and [rnd] are the two readings; [pretty] prints an integer in decimal,
    with a leading minus sign when negative, as [%d] does. *)
Definition generateRequestID (nano rnd : Z) : string :=
  pretty nano +:+ "-" +:+ pretty rnd.

(** The fields of [RPCClient] the call loop reads; the socket and the
    server address are the network below. *)
Record RPCClient : Type := { Timeout : Z; MaxRetries : Z }.

(** What one turn of the loop of [Call] meets: [WriteToUDP] fails; or the
    send succeeds and the [select] takes [errorChan] after a failed read,
    [responseChan] or [errorChan] after the turn's reader got a datagram
    (depending on whether it decodes), or [ctx.Done()].  A datagram taken
    by the reader goroutine left over from an earlier turn never reaches
    the [select]: the turn it arrives in ends as if it had not come. *)
Inductive Outcome : Type :=
| SendFailed (err : string)
| ReadFailed (err : string)
| Datagram (data : bytes)
| DeadlineExceeded.

(** The observable steps of the client: bytes handed to [WriteToUDP], and
    the back-off sleep (in milliseconds). *)
Inductive ClientEvent : Type :=
| Sent (data : bytes)
| Slept (ms : Z).

(** The readings [Call] takes before its loop. *)
Record Readings : Type := { clock_nano : Z; rand_1000 : Z; clock_unix : Z }.

(** [%v] of an [error]. *)
Definition fmt_v (e : error) : string :=
  match e with
  | None => "<nil>"
  | Some msg => msg
  end.

Section Client.

(** [json.Marshal] of an [RPCRequest], [json.Unmarshal] into an
    [RPCResponse], and [time.Duration.String]. *)
Variable json_Marshal_request : RPCRequest -> result bytes.
Variable json_Unmarshal_response : bytes -> result RPCResponse.
Variable Duration_String : Z -> string.

Variable c : RPCClient.
(** [net retry] is what turn [retry] of the loop meets: the failure of its
    send, or what its [select] takes. *)
Variable net : Z -> Outcome.

Definition exhausted (lastErr : error) : option RPCResponse * error :=
  (None, Some ("max retries exceeded: " +:+ fmt_v lastErr)).

(** The loop [for retry := 0; retry <= c.MaxRetries; retry++] from turn
    [retry] on, with [turns] turns left to run. *)
Fixpoint attempts (reqData : bytes) (turns : nat) (retry : Z) (lastErr : error)
  : (option RPCResponse * error) * list ClientEvent :=
  match turns with
  | O => (exhausted lastErr, [])
  | S turns' =>
    if retry <=? MaxRetries c then
      let failed (err : string) :=
        let backoff :=
          if retry <? MaxRetries c then [Slept ((retry + 1) * 500)] else [] in
        let '(r, evs) := attempts reqData turns' (retry + 1) (Some err) in
        (r, Sent reqData :: backoff ++ evs) in
      match net retry with
      | SendFailed err =>
        let '(r, evs) := attempts reqData turns' (retry + 1) (Some err) in
        (r, Sent reqData :: evs)
      | ReadFailed err => failed err
      | Datagram data =>
        match json_Unmarshal_response data with
        | Err err => failed err
        | Ok resp => ((Some resp, None), [Sent reqData])
        end
      | DeadlineExceeded =>
        failed ("timeout after " +:+ Duration_String (Timeout c))
      end
    else (exhausted lastErr, [])
  end.

Definition Call (env : Readings) (method : string) (params : gomap)
  : (option RPCResponse * error) * list ClientEvent :=
  let requestID := generateRequestID (clock_nano env) (rand_1000 env) in
  let req := {| req_RequestID := requestID; req_Method := method;
                req_Params := params; req_Timestamp := clock_unix env |} in
  match json_Marshal_request req with
  | Err err => ((None, Some err), [])
  | Ok reqData => attempts reqData (Z.to_nat (MaxRetries c + 1)) 0 None
  end.

End Client.

(** ** The reader goroutines and the socket *)

(** What one [ReadFromUDP] returns: a datagram, or an error. *)
Inductive ReadResult : Type :=
| Received (data : bytes)
| ReadError (err : string).

(** The socket of the client between two turns.  Every turn whose send
    succeeds starts a reader goroutine that makes one [ReadFromUDP] and
    then one send on a channel of that turn; the channels are unbuffered,
    and nothing stops the reader when the [select] of its turn takes
    [ctx.Done()].  [waiting] counts the readers of earlier turns (of this
    call, or of an earlier call on the same client) that are still in
    [ReadFromUDP]; the reads on one socket are served in the order they
    were made, so these readers stand in line before the reader of a
    later turn.  [unread] are the results that reached the socket with no
    reader to take them. *)
Record Socket : Type := { waiting : nat; unread : list ReadResult }.

(** Results reach the socket while no [select] waits: each goes to the
    oldest reader in line, which then blocks for ever in its send (its turn
    is over and nothing receives from its channels); the results past the
    last reader stay unread. *)
Definition arrive (results : list ReadResult) (sock : Socket) : Socket :=
  let queue := unread sock ++ results in
  {| waiting := (waiting sock - length queue)%nat;
     unread := drop (waiting sock) queue |}.

(** What a turn meets: the error of [WriteToUDP] when it fails, the
    results that reach the socket before the deadline of the turn, and
    those that reach it after the turn is over and before the next send. *)
Record Turn : Type :=
  { write_error : option string;
    in_time : list ReadResult;
    afterwards : list ReadResult }.

(** The results that the readers left by earlier turns take while the
    turn waits. *)
Definition taken_by_earlier (sock : Socket) (t : Turn) : list ReadResult :=
  take (waiting sock) (unread sock ++ in_time t).

(** One turn on the socket: what its [select] takes, and the socket it
    leaves.  After a failed send the loop goes on without starting a
    reader.  Otherwise the results at hand go first to the readers in
    line; the next result is the one the reader of this turn gets and its
    [select] takes; when there is none by the deadline the [select] takes
    [ctx.Done()] and the reader of this turn joins the line. *)
Definition turn_outcome (sock : Socket) (t : Turn) : Outcome * Socket :=
  match write_error t with
  | Some err => (SendFailed err, arrive (in_time t ++ afterwards t) sock)
  | None =>
    let queue := unread sock ++ in_time t in
    match drop (waiting sock) queue with
    | Received data :: rest =>
      (Datagram data, arrive (afterwards t) {| waiting := 0; unread := rest |})
    | ReadError err :: rest =>
      (ReadFailed err, arrive (afterwards t) {| waiting := 0; unread := rest |})
    | [] =>
      (DeadlineExceeded,
       arrive (afterwards t)
              {| waiting := S (waiting sock - length queue); unread := [] |})
    end
  end.

(** The socket before turn [k], when the turns before it all ran. *)
Fixpoint socket_before (turns : nat -> Turn) (sock : Socket) (k : nat) : Socket :=
  match k with
  | O => sock
  | S k' => snd (turn_outcome (socket_before turns sock k') (turns k'))
  end.

(** What the [select] of each turn takes, on the socket [sock] that meets
    [turns]: the network the loop of [Call] runs against. *)
Definition socket_net (turns : nat -> Turn) (sock : Socket) (retry : Z) : Outcome :=
  fst (turn_outcome (socket_before turns sock (Z.to_nat retry))
                    (turns (Z.to_nat retry))).

(** * Notions used in the statements *)

(** ** Parameter mappings and messages *)

(** The parameter mapping [{"a": a, "b": b}] with two numbers. *)
Definition num_params (a b : float) : gomap :=
  Some (<["a"%string := Some (DFloat a)]> (<["b"%string := Some (DFloat b)]> ∅)).

(** The parameter mapping [{"s": s}]. *)
Definition string_params (s : string) : gomap :=
  Some {["s"%string := Some (DString s)]}.

(** [contains needle hay]: [needle] occurs in [hay]. *)
Fixpoint contains (needle hay : string) : bool :=
  String.prefix needle hay ||
  match hay with
  | EmptyString => false
  | String _ rest => contains needle rest
  end.

(** A message names parameter [p] when it quotes it: ['p']. *)
Definition names_parameter (p msg : string) : bool :=
  contains ("'" +:+ p +:+ "'") msg.

Definition not_number (v : iface) : Prop := forall f, v <> Some (DFloat f).
Definition not_string (v : iface) : Prop := forall s, v <> Some (DString s).

(** What a handler hands back: a value and a nil error, or no value and an
    error with a message. *)
Definition handler_outcome (r : iface * error) : Prop :=
  (exists d, r = (Some d, None)) \/
  (exists msg, r = (None, Some msg) /\ msg <> ""%string).

(** ** Runs of the dispatcher *)

Definition is_invoked (e : Event) : bool :=
  match e with
  | Invoked _ _ => true
  | WriteToUDP _ => false
  end.

(** The number of handler entries in a run of events. *)
Definition invocations (evs : list Event) : nat :=
  length (filter (fun e => is_invoked e = true) evs).

(** A [Service] in use: its ledger, and the clean-up goroutines started
    by [ExecuteMethod] that are still in their [time.Sleep], each with the
    second its deletion is due and the id it deletes. *)
Record Running : Type := { ledger : Service; sleeping : list (Z * string) }.

(** [5 * time.Minute], in seconds. *)
Definition retention : Z := 300.

(** The goroutines whose sleep is over by the second [now] make their
    deletions.  A request that comes in the very second a deletion is due
    is taken to come after it. *)
Definition wake (now : Z) (r : Running) : Running :=
  {| ledger := foldr (fun t s => if fst t <=? now then expire s (snd t) else s)
                     (ledger r) (sleeping r);
     sleeping := filter (fun t => now < fst t) (sleeping r) |}.

(** [ExecuteMethod] at the second [now] on a [Service] in use: the request
    meets the ledger as the deletions due by then have left it, and
    [ExecuteMethod] starts one more clean-up goroutine unless it found the
    id (the [return] of the DUPLICATE branch comes before the [go]). *)
Definition ExecuteMethod_at (now : Z) (r : Running) (req : RPCRequest)
  : Running * list Event * RPCResponse :=
  let r1 := wake now r in
  let '(s', evs, resp) := ExecuteMethod now (ledger r1) req in
  let started :=
    match requestLog (ledger r1) !! req_RequestID req with
    | Some _ => []
    | None => [(now + retention, req_RequestID req)]
    end in
  ({| ledger := s'; sleeping := sleeping r1 ++ started |}, evs, resp).

(** [ExecuteMethod] called in sequence on one [Service], each call with
    the second it is made in. *)
Fixpoint ExecuteMethod_seq (r : Running) (calls : list (Z * RPCRequest))
  : Running * list Event * list RPCResponse :=
  match calls with
  | [] => (r, [], [])
  | (now, req) :: rest =>
    let '(r1, evs1, resp) := ExecuteMethod_at now r req in
    let '(r2, evs2, resps) := ExecuteMethod_seq r1 rest in
    (r2, evs1 ++ evs2, resp :: resps)
  end.

(** The copies of the request with id [id] that come before the second
    [horizon]. *)
Definition copies_before (id : string) (horizon : Z) (calls : list (Z * RPCRequest)) : Prop :=
  Forall (fun call => req_RequestID (snd call) = id /\ fst call < horizon) calls.

(** No clean-up goroutine asleep in [r] deletes [id] before the second
    [horizon]. *)
Definition kept_until (id : string) (horizon : Z) (r : Running) : Prop :=
  Forall (fun t => snd t = id -> horizon <= fst t) (sleeping r).

(** A [Service] just made: nothing in the ledger, no goroutine asleep. *)
Definition fresh_service : Running :=
  {| ledger := {| requestLog := ∅ |}; sleeping := [] |}.

Definition duplicate_response (id : string) : RPCResponse :=
  {| RequestID := id; Result := None;
     Error := "Request already processed"; Status := "DUPLICATE" |}.

Section DispatcherNotions.

Variable json_Unmarshal_request : bytes -> result RPCRequest.
Variable json_Marshal_response : RPCResponse -> result bytes.

(** The dispatcher rejects a datagram: [ParseInput] fails with some
    error, and all [handleMessage] does is hand one buffer to
    [WriteToUDP], the encoding of a response whose status is ERROR, that
    has no result and whose error reports the failure of [ParseInput]
    (the nil buffer, should [json.Marshal] refuse that response).  No
    handler is entered. *)
Definition rejected (now : Z) (buffer : bytes) : Prop :=
  exists (err : string) (resp : RPCResponse),
    ParseInput json_Unmarshal_request buffer = Err err /\
    Status resp = "ERROR"%string /\
    Result resp = None /\
    Error resp = "error parsing inputs: " +:+ err /\
    handleMessage json_Unmarshal_request json_Marshal_response now buffer
    = [WriteToUDP match json_Marshal_response resp with
                  | Ok data => data
                  | Err _ => []
                  end] /\
    invocations
      (handleMessage json_Unmarshal_request json_Marshal_response now buffer)
    = 0%nat.

(** What [handleMessage] does with a request it accepted at time [now]:
    [ExecuteMethod] on the [Service] it has just made, then the send. *)
Definition fresh_execution (now : Z) (req : RPCRequest) : list Event :=
  let '(_, evs, resp) := ExecuteMethod now {| requestLog := ∅ |} req in
  evs ++ match json_Marshal_response resp with
         | Ok respData => [WriteToUDP respData]
         | Err err => HandleErr json_Marshal_response "error marshaling response" err
         end.

End DispatcherNotions.

(** ** Turns of the call loop *)

(** The buffers handed to [WriteToUDP], in order. *)
Definition sent_data (evs : list ClientEvent) : list bytes :=
  omap (fun e => match e with Sent data => Some data | Slept _ => None end) evs.

Section CallNotions.

Variable json_Unmarshal_response : bytes -> result RPCResponse.
Variable Duration_String : Z -> string.
Variable c : RPCClient.

(** The response the [select] of a turn takes from [responseChan], if it
    does: the reader started by that turn got a datagram, and it decodes.
    A datagram that the reader left by an earlier turn got is no outcome
    of any turn. *)
Definition definitive (o : Outcome) : option RPCResponse :=
  match o with
  | Datagram data =>
    match json_Unmarshal_response data with
    | Ok resp => Some resp
    | Err _ => None
    end
  | _ => None
  end.

(** The error a turn leaves in [lastErr] when it does not end the call. *)
Definition failure (o : Outcome) : string :=
  match o with
  | SendFailed err => err
  | ReadFailed err => err
  | Datagram data =>
    match json_Unmarshal_response data with
    | Ok _ => ""
    | Err err => err
    end
  | DeadlineExceeded => "timeout after " +:+ Duration_String (Timeout c)
  end.

(** The sleep that follows a failed turn. *)
Definition backoff (o : Outcome) (retry : Z) : list ClientEvent :=
  match o with
  | SendFailed _ => []
  | _ => if retry <? MaxRetries c then [Slept ((retry + 1) * 500)] else []
  end.

End CallNotions.

(** The request [Call] builds before its loop. *)
Definition call_request (env : Readings) (method : string) (params : gomap)
  : RPCRequest :=
  {| req_RequestID := generateRequestID (clock_nano env) (rand_1000 env);
     req_Method := method; req_Params := params;
     req_Timestamp := clock_unix env |}.

(** ** Identifiers and reversed strings *)

(** No minus sign occurs in [s]. *)
Fixpoint dash_free (s : string) : bool :=
  match s with
  | EmptyString => true
  | String ch rest => negb (Ascii.eqb ch "-") && dash_free rest
  end.

(** The identifiers of a run of invocations, each given by the clock value
    it reads and the discriminator it draws. *)
Definition identifiers (run : list (Z * Z)) : list string :=
  map (fun reading => generateRequestID (fst reading) (snd reading)) run.

(** A reading the process can make: an [int64] clock value and a
    discriminator from [rand.Intn(1000)]. *)
Definition possible_reading (reading : Z * Z) : bool :=
  (- 2 ^ 63 <=? fst reading) && (fst reading <? 2 ^ 63)
  && (0 <=? snd reading) && (snd reading <? 1000).

(** The string [reverseString] computes from [s]. *)
Definition reversed (s : string) : string :=
  Utf8.slicerunetostring (reverse (Utf8.stringtoslicerune s)).

(** ** Example datagrams and calls *)

(** The double quote, and a quoted word. *)
Definition dq : string := String (ascii_of_nat 34) EmptyString.
Definition quoted (s : string) : string := dq +:+ s +:+ dq.

(** A decoder given by a table: what [json.Unmarshal] yields on the
    datagrams of the examples; any other buffer is refused. *)
Definition table_Unmarshal {A : Type} (table : list (string * A)) (data : bytes)
  : result A :=
  match find (fun e => String.eqb (fst e) (string_of_list_byte data)) table with
  | Some e => Ok (snd e)
  | None => Err "invalid character"
  end.

(** The request [add(5, 7)] with id [c1], and its datagram
    [{"request_id":"c1","method":"add","params":{"a":5,"b":7}}]. *)
Definition add_5_7_request : RPCRequest :=
  {| req_RequestID := "c1"; req_Method := "add";
     req_Params := num_params 5 7; req_Timestamp := 0 |}.

Definition add_5_7_text : string :=
  "{" +:+ quoted "request_id" +:+ ":" +:+ quoted "c1" +:+ ","
      +:+ quoted "method" +:+ ":" +:+ quoted "add" +:+ ","
      +:+ quoted "params" +:+ ":{" +:+ quoted "a" +:+ ":5,"
      +:+ quoted "b" +:+ ":7}}".

Definition add_5_7_datagram : bytes := list_byte_of_string add_5_7_text.

(** The response [OK 12] to [c1], and its datagram
    [{"request_id":"c1","result":12,"status":"OK"}]. *)
Definition ok_12_response : RPCResponse :=
  {| RequestID := "c1"; Result := Some (DFloat 12); Error := ""; Status := "OK" |}.

Definition ok_12_text : string :=
  "{" +:+ quoted "request_id" +:+ ":" +:+ quoted "c1" +:+ ","
      +:+ quoted "result" +:+ ":12,"
      +:+ quoted "status" +:+ ":" +:+ quoted "OK" +:+ "}".

Definition ok_12_datagram : bytes := list_byte_of_string ok_12_text.

Definition example_Unmarshal_request : bytes -> result RPCRequest :=
  table_Unmarshal [(add_5_7_text, add_5_7_request)].

(** An encoder for the examples: the datagram of [ok_12_response] for an OK
    response to [c1]. *)
Definition example_Marshal_response (resp : RPCResponse) : result bytes :=
  if String.eqb (RequestID resp) "c1" && String.eqb (Status resp) "OK"
  then Ok ok_12_datagram
  else Err "json: unsupported value".

(** [json.Marshal] on the requests of the examples, those whose parameter
    mapping is empty:
    [{"request_id":"<id>","method":"<m>","params":{},"timestamp":<t>}] . *)
Definition example_Marshal_request (req : RPCRequest) : result bytes :=
  match req_Params req with
  | Some g =>
    if Nat.eqb (size g) 0 then
      Ok (list_byte_of_string
            ("{" +:+ quoted "request_id" +:+ ":" +:+ quoted (req_RequestID req)
                 +:+ "," +:+ quoted "method" +:+ ":" +:+ quoted (req_Method req)
                 +:+ "," +:+ quoted "params" +:+ ":{},"
                 +:+ quoted "timestamp" +:+ ":" +:+ pretty (req_Timestamp req)
                 +:+ "}"))
    else Err "json: unsupported value"
  | None => Err "json: unsupported value"
  end.

(** A response to an earlier call, [1699999999000000000-7], and its
    datagram
    [{"request_id":"1699999999000000000-7","result":1699999999,"status":"OK"}]. *)
Definition late_response : RPCResponse :=
  {| RequestID := "1699999999000000000-7";
     Result := Some (DFloat 1699999999); Error := ""; Status := "OK" |}.

Definition late_text : string :=
  "{" +:+ quoted "request_id" +:+ ":" +:+ quoted "1699999999000000000-7" +:+ ","
      +:+ quoted "result" +:+ ":1699999999,"
      +:+ quoted "status" +:+ ":" +:+ quoted "OK" +:+ "}".

Definition late_datagram : bytes := list_byte_of_string late_text.

Definition example_Unmarshal_response : bytes -> result RPCResponse :=
  table_Unmarshal [(late_text, late_response)].

(** [time.Duration.String] on whole seconds. *)
Definition example_Duration_String (ns : Z) : string :=
  pretty (ns / 1000000000) +:+ "s".

Definition example_client : RPCClient :=
  {| Timeout := 2000000000; MaxRetries := 2 |}.

Definition example_env : Readings :=
  {| clock_nano := 1700000000000000000; rand_1000 := 42;
     clock_unix := 1700000000 |}.

(** The datagram of the example call [get_time] with no parameters. *)
Definition get_time_datagram : bytes :=
  list_byte_of_string
    ("{" +:+ quoted "request_id" +:+ ":" +:+ quoted "1700000000000000000-42"
         +:+ "," +:+ quoted "method" +:+ ":" +:+ quoted "get_time"
         +:+ "," +:+ quoted "params" +:+ ":{},"
         +:+ quoted "timestamp" +:+ ":1700000000}").

(** A network on which every [select] ends at the deadline, and one on
    which every [select] takes the late response. *)
Definition silent_net (retry : Z) : Outcome := DeadlineExceeded.
Definition late_net (retry : Z) : Outcome := Datagram late_datagram.

(** The text [a], the euro sign (bytes E2 82 AC), [b]. *)
Definition euro_text : string :=
  String "a" (String (Utf8.chr 0xE2) (String (Utf8.chr 0x82)
                                             (String (Utf8.chr 0xAC) "b"))).

(** The one-byte string FF, which is not well-formed, and the encoding of
    U+FFFD (bytes EF BF BD). *)
Definition byte_ff_text : string := String (Utf8.chr 0xFF) EmptyString.
Definition fffd_text : string :=
  String (Utf8.chr 0xEF) (String (Utf8.chr 0xBF)
                                 (String (Utf8.chr 0xBD) EmptyString)).

(** ** Notions of the further properties *)

(** The method names of the [switch] of [ExecuteMethod]. *)
Definition known_method (m : string) : bool :=
  String.eqb m "add" || String.eqb m "subtract" || String.eqb m "multiply"
  || String.eqb m "divide" || String.eqb m "get_time"
  || String.eqb m "reverse_string" || String.eqb m "echo".

Section ErrorDatagram.

Variable json_Marshal_response : RPCResponse -> result bytes.

(** The buffer [HandleErr] hands to [WriteToUDP]. *)
Definition error_datagram (message err : string) : bytes :=
  match json_Marshal_response (error_response message err) with
  | Ok data => data
  | Err _ => []
  end.

End ErrorDatagram.

(** The back-off sleeps of a run of the client, in milliseconds. *)
Definition slept_ms (evs : list ClientEvent) : list Z :=
  omap (fun e => match e with Slept ms => Some ms | Sent _ => None end) evs.

(** The send of a turn went through. *)
Definition send_ok (o : Outcome) : bool :=
  match o with
  | SendFailed _ => false
  | _ => true
  end.

(** Every byte of [s] is below [0x80]. *)
Fixpoint is_ascii (s : string) : bool :=
  match s with
  | EmptyString => true
  | String ch rest => (Utf8.ord ch <? 0x80) && is_ascii rest
  end.

(** [s] with its bytes in reverse order. *)
Definition byte_reverse (s : string) : string :=
  string_of_list_ascii (reverse (list_ascii_of_string s)).

(** A request for a method the server does not have, [sort]. *)
Definition sort_request : RPCRequest :=
  {| req_RequestID := "c2"; req_Method := "sort";
     req_Params := None; req_Timestamp := 0 |}.

(** A request with an id and no method, and its datagram
    [{"request_id":"c3"}]. *)
Definition no_method_request : RPCRequest :=
  {| req_RequestID := "c3"; req_Method := "";
     req_Params := None; req_Timestamp := 0 |}.

Definition no_method_text : string :=
  "{" +:+ quoted "request_id" +:+ ":" +:+ quoted "c3" +:+ "}".

Definition no_method_datagram : bytes := list_byte_of_string no_method_text.

(** [json.Marshal] on the responses of [HandleErr], whose id and result are
    empty: [{"request_id":"","error":"<text>","status":"ERROR"}]. *)
Definition error_Marshal_response (resp : RPCResponse) : result bytes :=
  match Result resp with
  | None =>
    if String.eqb (RequestID resp) "" && String.eqb (Status resp) "ERROR" then
      Ok (list_byte_of_string
            ("{" +:+ quoted "request_id" +:+ ":" +:+ quoted "" +:+ ","
                 +:+ quoted "error" +:+ ":" +:+ quoted (Error resp) +:+ ","
                 +:+ quoted "status" +:+ ":" +:+ quoted "ERROR" +:+ "}"))
    else Err "json: unsupported value"
  | Some _ => Err "json: unsupported value"
  end.

(** The example calls [get_time] and [echo] with an empty mapping, as the
    server decodes them. *)
Definition get_time_text : string :=
  "{" +:+ quoted "request_id" +:+ ":" +:+ quoted "1700000000000000000-42"
      +:+ "," +:+ quoted "method" +:+ ":" +:+ quoted "get_time"
      +:+ "," +:+ quoted "params" +:+ ":{},"
      +:+ quoted "timestamp" +:+ ":1700000000}".

Definition echo_text : string :=
  "{" +:+ quoted "request_id" +:+ ":" +:+ quoted "1700000000000000000-42"
      +:+ "," +:+ quoted "method" +:+ ":" +:+ quoted "echo"
      +:+ "," +:+ quoted "params" +:+ ":{},"
      +:+ quoted "timestamp" +:+ ":1700000000}".

Definition echo_datagram : bytes := list_byte_of_string echo_text.

Definition calls_Unmarshal_request : bytes -> result RPCRequest :=
  table_Unmarshal
    [(get_time_text, call_request example_env "get_time" (Some ∅));
     (echo_text, call_request example_env "echo" (Some ∅));
     (no_method_text, no_method_request)].

(** The server's answer to the [echo] call, and its datagram
    [{"request_id":"1700000000000000000-42","result":{},"status":"OK"}]. *)
Definition echo_response : RPCResponse :=
  {| RequestID := "1700000000000000000-42";
     Result := Some (DMap (Some ∅)); Error := ""; Status := "OK" |}.

Definition echo_response_text : string :=
  "{" +:+ quoted "request_id" +:+ ":" +:+ quoted "1700000000000000000-42" +:+ ","
      +:+ quoted "result" +:+ ":{},"
      +:+ quoted "status" +:+ ":" +:+ quoted "OK" +:+ "}".

Definition echo_response_datagram : bytes :=
  list_byte_of_string echo_response_text.


Definition echo_Unmarshal_response : bytes -> result RPCResponse :=
  table_Unmarshal [(echo_response_text, echo_response)].


(** A client that may not even try. *)
Definition no_turn_client : RPCClient :=
  {| Timeout := 2000000000; MaxRetries := -1 |}.

(** A socket with no reader in line and nothing unread, and a turn whose
    send succeeds and during which nothing comes. *)
Definition fresh_socket : Socket := {| waiting := 0; unread := [] |}.

Definition silent_turn : Turn :=
  {| write_error := None; in_time := []; afterwards := [] |}.

(** Nothing comes but one datagram, in time during turn [j]. *)
Definition answered_late (data : bytes) (j k : nat) : Turn :=
  if Nat.eqb k j
  then {| write_error := None; in_time := [Received data]; afterwards := [] |}
  else silent_turn.

(** Nothing comes during the first turn; during the second the server's
    response to the call comes, and after it the late response to the
    earlier call. *)
Definition late_after_answer (k : nat) : Turn :=
  if Nat.eqb k 1
  then {| write_error := None;
          in_time := [Received echo_response_datagram; Received late_datagram];
          afterwards := [] |}
  else silent_turn.

(** A decoder that knows both responses. *)
Definition both_Unmarshal_response : bytes -> result RPCResponse :=
  table_Unmarshal [(echo_response_text, echo_response); (late_text, late_response)].

(** * Properties *)

(** ** The arithmetic handlers *)

Lemma assert_float64_ok (v : iface) (f : float) :
  v = Some (DFloat f) -> assert_float64 v = (f, true).
Proof. intros ->. reflexivity. Qed.

(** A failed assertion is exactly a value that is not a float64. *)
Lemma assert_float64_false (v : iface) :
  snd (assert_float64 v) = false <-> (forall f, v <> Some (DFloat f)).
Proof.
  split.
  - intros H f ->. discriminate H.
  - intros H. destruct v as [[f| | | | |]|]; try reflexivity.
    destruct (H f); reflexivity.
Qed.

Lemma assert_string_false (v : iface) :
  snd (assert_string v) = false <-> (forall s, v <> Some (DString s)).
Proof.
  split.
  - intros H s ->. discriminate H.
  - intros H. destruct v as [[| |s| | |]|]; try reflexivity.
    destruct (H s); reflexivity.
Qed.

(** Unfold a handler whose two parameters are known to be numbers. *)
Ltac handler_numeric Ha Hb :=
  match goal with
  | |- ?h ?p = _ =>
    unfold h; rewrite (assert_float64_ok _ _ Ha), (assert_float64_ok _ _ Hb)
  end; simpl.

(** C5. On the sample inputs the handlers return [add(5,7) = 12],
    [subtract(10,3) = 7], [multiply(4,6) = 24], [divide(15,3) = 5] with a
    nil error, and [divide(5,0)] returns no result and the error
    "division by zero"; and on every mapping whose [a] and [b] are
    numbers the four handlers return [a+b], [a-b], [a*b] and, unless [b]
    is zero, [a/b], each with a nil error, while [divide] with [b] zero
    returns no result and "division by zero". *)
Theorem arithmetic_handlers_correct :
  add (num_params 5 7) = (Some (DFloat 12), None) /\
  subtract (num_params 10 3) = (Some (DFloat 7), None) /\
  multiply (num_params 4 6) = (Some (DFloat 24), None) /\
  divide (num_params 15 3) = (Some (DFloat 5), None) /\
  divide (num_params 5 0) = (None, Some "division by zero"%string) /\
  forall (params : gomap) (a b : float),
    map_index params "a" = Some (DFloat a) ->
    map_index params "b" = Some (DFloat b) ->
    add params = (Some (DFloat (a + b)%float), None) /\
    subtract params = (Some (DFloat (a - b)%float), None) /\
    multiply params = (Some (DFloat (a * b)%float), None) /\
    ((b =? 0)%float = false ->
     divide params = (Some (DFloat (a / b)%float), None)) /\
    ((b =? 0)%float = true ->
     divide params = (None, Some "division by zero"%string)).
Proof.
  do 5 (split; [reflexivity|]).
  intros params a b Ha Hb. repeat split.
  1-3: handler_numeric Ha Hb; reflexivity.
  all: intros Hzero; handler_numeric Ha Hb; rewrite Hzero; reflexivity.
Qed.

Lemma arithmetic_handlers_correct_witness :
  map_index (num_params 20 4) "a" = Some (DFloat 20) /\
  map_index (num_params 20 4) "b" = Some (DFloat 4) /\
  (4 =? 0)%float = false /\
  divide (num_params 20 4) = (Some (DFloat 5), None).
Proof.
  split; [reflexivity|]. split; [reflexivity|]. split; [reflexivity|].
  exact (proj1 (proj2 (proj2 (proj2
    (proj2 (proj2 (proj2 (proj2 (proj2 arithmetic_handlers_correct))))
       (num_params 20 4) 20%float 4%float eq_refl eq_refl))))
    eq_refl).
Defined.

(** ** Parameter validation *)

(** The four handlers share their validation: one lemma for all. *)
Lemma numeric_validation (params : gomap) :
  not_number (map_index params "a") \/ not_number (map_index params "b") ->
  Forall (fun h : gomap -> iface * error =>
            h params = (None, Some "parameters 'a' and 'b' must be numbers"%string))
         [add; subtract; multiply; divide].
Proof.
  intros H.
  assert (negb (snd (assert_float64 (map_index params "a")))
          || negb (snd (assert_float64 (map_index params "b"))) = true) as Hor.
  { destruct H as [H|H]; apply assert_float64_false in H; rewrite H;
      [reflexivity | apply orb_true_r]. }
  repeat (apply Forall_cons; split); [..|exact (Forall_nil_2 _)]; cbv beta;
    unfold add, subtract, multiply, divide;
    destruct (assert_float64 (map_index params "a")) as [a ok1];
    destruct (assert_float64 (map_index params "b")) as [b ok2];
    simpl in Hor; rewrite Hor; reflexivity.
Qed.

(** C6. A handler given a parameter of the wrong type returns no result
    and a validation error that names the offending parameter: [add] with
    [a = "x"], [b = 1] does; every arithmetic handler does on every
    mapping whose [a] or [b] is not a number (its one message, "parameters
    'a' and 'b' must be numbers", quotes the offending name whichever it
    is); and [reverseString] does, naming [s], on every mapping whose [s]
    is not a string. *)
Theorem type_validation_names_parameter :
  (exists msg,
     add (Some (<["a"%string := Some (DString "x")]>
                  (<["b"%string := Some (DFloat 1)]> ∅))) = (None, Some msg)
     /\ names_parameter "a" msg = true) /\
  (forall params : gomap,
     not_number (map_index params "a") \/ not_number (map_index params "b") ->
     Forall (fun h : gomap -> iface * error =>
               exists msg,
                 h params = (None, Some msg) /\
                 msg = "parameters 'a' and 'b' must be numbers"%string /\
                 (not_number (map_index params "a") ->
                  names_parameter "a" msg = true) /\
                 (not_number (map_index params "b") ->
                  names_parameter "b" msg = true))
            [add; subtract; multiply; divide]) /\
  (forall params : gomap,
     not_string (map_index params "s") ->
     exists msg,
       reverseString params = (None, Some msg) /\
       msg = "parameter 's' must be a string"%string /\
       names_parameter "s" msg = true).
Proof.
  split; [|split].
  - eexists. split; reflexivity.
  - intros params H. eapply Forall_impl; [apply (numeric_validation params H)|].
    intros h Hh. simpl in Hh. eexists. split; [exact Hh|].
    split; [reflexivity|]. split; reflexivity.
  - intros params H. apply assert_string_false in H.
    unfold reverseString.
    destruct (assert_string (map_index params "s")) as [str ok].
    simpl in H. subst ok. eexists. split; [reflexivity|]. split; reflexivity.
Qed.

Lemma type_validation_names_parameter_witness :
  not_string (map_index (Some (<["s"%string := Some (DFloat 3)]> ∅)) "s") /\
  exists msg,
    reverseString (Some (<["s"%string := Some (DFloat 3)]> ∅)) = (None, Some msg)
    /\ msg = "parameter 's' must be a string"%string
    /\ names_parameter "s" msg = true.
Proof.
  assert (not_string (map_index (Some (<["s"%string := Some (DFloat 3)]> ∅)) "s"))
    as H by (intros s; discriminate).
  split; [exact H|].
  exact (proj2 (proj2 type_validation_names_parameter) _ H).
Defined.

(** ** The reversal loop *)

Lemma slice_get_middle (pre post : list Z) (x : Z) :
  slice_get (pre ++ x :: post) (Z.of_nat (length pre)) = Some x.
Proof.
  unfold slice_get.
  destruct (Z.leb_spec 0 (Z.of_nat (length pre))); [|lia].
  rewrite Nat2Z.id. apply list_lookup_middle. reflexivity.
Qed.

(** The loop run on [pre ++ mid ++ post] between the ends of [mid]
    reverses [mid] in place, and never indexes out of range. *)
Lemma swap_loop_reverses (fuel : nat) :
  forall pre mid post : list Z,
    (length mid <= fuel)%nat ->
    swap_loop fuel (Z.of_nat (length pre))
              (Z.of_nat (length pre + length mid) - 1) (pre ++ mid ++ post)
    = Some (pre ++ reverse mid ++ post).
Proof.
  induction fuel as [|fuel IH]; intros pre mid post Hlen.
  - destruct mid; [reflexivity | simpl in Hlen; lia].
  - cbn [swap_loop]. destruct (Z.ltb_spec (Z.of_nat (length pre))
                       (Z.of_nat (length pre + length mid) - 1)) as [Hlt|Hge].
    + destruct mid as [|x mid]; [simpl in Hlt; lia|].
      destruct (decide (mid = [])) as [->|Hne]; [simpl in Hlt; lia|].
      destruct (exists_last Hne) as (mid' & y & ->).
      cbn [app]. rewrite slice_get_middle.
      replace (Z.of_nat (length pre + length (x :: mid' ++ [y])) - 1)
        with (Z.of_nat (length (pre ++ x :: mid')))
        by (simpl; rewrite !length_app; simpl; lia).
      replace (pre ++ x :: (mid' ++ [y]) ++ post)
        with ((pre ++ x :: mid') ++ y :: post)
        by (simpl; rewrite <- !app_assoc; reflexivity).
      rewrite slice_get_middle, !Nat2Z.id.
      rewrite <- (app_assoc pre), <- app_comm_cons.
      rewrite (insert_app_r_alt pre), Nat.sub_diag by lia. cbn [insert list_insert].
      replace (pre ++ y :: mid' ++ y :: post)
        with ((pre ++ y :: mid') ++ y :: post)
        by (rewrite <- app_assoc; reflexivity).
      rewrite (insert_app_r_alt (pre ++ y :: mid'))
        by (rewrite !length_app; simpl; lia).
      replace (length (pre ++ x :: mid') - length (pre ++ y :: mid'))%nat with 0%nat
        by (rewrite !length_app; simpl; lia).
      cbn [insert list_insert].
      replace ((pre ++ y :: mid') ++ x :: post)
        with ((pre ++ [y]) ++ mid' ++ x :: post)
        by (rewrite <- !app_assoc; reflexivity).
      replace (Z.of_nat (length pre) + 1) with (Z.of_nat (length (pre ++ [y])))
        by (rewrite length_app; simpl; lia).
      replace (Z.of_nat (length (pre ++ x :: mid')) - 1)
        with (Z.of_nat (length (pre ++ [y]) + length mid') - 1)
        by (rewrite !length_app; simpl; lia).
      rewrite IH by (simpl in Hlen; rewrite length_app in Hlen; simpl in Hlen; lia).
      rewrite reverse_cons, reverse_snoc. simpl.
      rewrite <- !app_assoc. reflexivity.
    + destruct mid as [|x [|y mid]]; try reflexivity.
      simpl in Hge. lia.
Qed.

(** The loop computes the reversed slice, and does not panic. *)
Lemma reverse_runes_rev (runes : list Z) :
  reverse_runes runes = Some (reverse runes).
Proof.
  unfold reverse_runes.
  pose proof (swap_loop_reverses (length runes) [] runes [] (Nat.le_refl _)) as H.
  simpl in H. rewrite !app_nil_r in H. exact H.
Qed.

(** ** The response envelope *)

Local Ltac outcome_value := left; eexists; reflexivity.
Local Ltac outcome_error := right; eexists; split; [reflexivity | discriminate].

Lemma arithmetic_outcome (params : gomap) :
  Forall (fun h : gomap -> iface * error => handler_outcome (h params))
         [add; subtract; multiply; divide].
Proof.
  repeat (apply Forall_cons; split); [..|exact (Forall_nil_2 _)]; cbv beta;
    unfold add, subtract, multiply, divide;
    destruct (assert_float64 (map_index params "a")) as [a [|]];
    destruct (assert_float64 (map_index params "b")) as [b [|]];
    simpl; try outcome_error; try outcome_value.
  destruct (b =? 0)%float; [outcome_error | outcome_value].
Qed.

Lemma reverseString_outcome (params : gomap) :
  handler_outcome (reverseString params).
Proof.
  unfold reverseString.
  destruct (assert_string (map_index params "s")) as [str [|]]; simpl.
  - rewrite reverse_runes_rev. outcome_value.
  - outcome_error.
Qed.

Lemma dispatch_outcome (now : Z) (req : RPCRequest) :
  handler_outcome (snd (dispatch now req)).
Proof.
  pose proof (arithmetic_outcome (req_Params req)) as H.
  apply Forall_cons in H as [Hadd H]. apply Forall_cons in H as [Hsub H].
  apply Forall_cons in H as [Hmul H]. apply Forall_cons in H as [Hdiv _].
  unfold dispatch.
  repeat (match goal with |- context [String.eqb ?a ?b] => destruct (String.eqb a b) end;
          [simpl; first [assumption | apply reverseString_outcome | outcome_value]|]).
  simpl. outcome_error.
Qed.

(** C3. The response [ExecuteMethod] builds carries the request's id; its
    status is OK, ERROR or DUPLICATE; its result is non-nil exactly when
    the status is OK; and its error text is non-empty exactly when the
    status is ERROR or DUPLICATE. *)
Theorem ExecuteMethod_envelope (now : Z) (s : Service) (req : RPCRequest) :
  let resp := snd (ExecuteMethod now s req) in
  RequestID resp = req_RequestID req /\
  (Status resp = "OK"%string \/ Status resp = "ERROR"%string \/
   Status resp = "DUPLICATE"%string) /\
  (Result resp <> None <-> Status resp = "OK"%string) /\
  (Error resp <> ""%string <->
   Status resp = "ERROR"%string \/ Status resp = "DUPLICATE"%string).
Proof.
  unfold ExecuteMethod, LoadOrStore.
  destruct (requestLog s !! req_RequestID req) as [actual|]; simpl.
  - repeat split; intros; intuition congruence.
  - pose proof (dispatch_outcome now req) as H.
    destruct (dispatch now req) as [evs [result err]]; simpl in H.
    destruct H as [[d [= -> ->]] | [msg [[= -> ->] Hmsg]]]; simpl;
      repeat split; intros; intuition congruence.
Qed.

(** ** The dispatcher: validation and duplicate suppression *)

Lemma ExecuteMethod_seen (now : Z) (s : Service) (req : RPCRequest) :
  is_Some (requestLog s !! req_RequestID req) ->
  ExecuteMethod now s req = (s, [], duplicate_response (req_RequestID req)).
Proof.
  intros [actual H]. unfold ExecuteMethod, LoadOrStore. rewrite H.
  destruct s. reflexivity.
Qed.

Lemma ExecuteMethod_records (now : Z) (s : Service) (req : RPCRequest) :
  is_Some (requestLog (fst (fst (ExecuteMethod now s req))) !! req_RequestID req).
Proof.
  unfold ExecuteMethod, LoadOrStore.
  destruct (requestLog s !! req_RequestID req) as [actual|] eqn:H; simpl.
  - rewrite H. eauto.
  - destruct (dispatch now req) as [evs [result [msg|]]]; simpl;
      rewrite lookup_insert_eq; eauto.
Qed.

Lemma ExecuteMethod_first (now : Z) (s : Service) (req : RPCRequest) :
  requestLog s !! req_RequestID req = None ->
  Status (snd (ExecuteMethod now s req)) <> "DUPLICATE"%string.
Proof.
  intros H. unfold ExecuteMethod, LoadOrStore. rewrite H.
  destruct (dispatch now req) as [evs [result [msg|]]]; simpl; discriminate.
Qed.

(** Deletions of other ids, or none, leave the entry of an id as it is. *)
Lemma wake_kept (now horizon : Z) (id : string) (r : Running) :
  now < horizon ->
  kept_until id horizon r ->
  requestLog (ledger (wake now r)) !! id = requestLog (ledger r) !! id /\
  kept_until id horizon (wake now r).
Proof.
  intros Hnow Hkept. unfold kept_until, wake in *. simpl. split.
  - induction (sleeping r) as [|t l IH]; [reflexivity|].
    apply Forall_cons in Hkept as [Ht Hl]. simpl.
    destruct (fst t <=? now) eqn:Hdue; [|exact (IH Hl)].
    simpl. rewrite lookup_delete_ne; [exact (IH Hl)|].
    intros Heq. specialize (Ht Heq). lia.
  - apply Forall_forall. intros t Hin.
    apply list_elem_of_filter in Hin as [_ Hin].
    rewrite Forall_forall in Hkept. exact (Hkept t Hin).
Qed.

(** On a [Service] that holds the id and keeps it until [horizon], every
    copy that comes before [horizon] is answered DUPLICATE and enters no
    handler. *)
Lemma ExecuteMethod_seq_seen (calls : list (Z * RPCRequest)) :
  forall (r : Running) (id : string) (horizon : Z),
    is_Some (requestLog (ledger r) !! id) ->
    kept_until id horizon r ->
    copies_before id horizon calls ->
    snd (fst (ExecuteMethod_seq r calls)) = [] /\
    snd (ExecuteMethod_seq r calls) = map (fun _ => duplicate_response id) calls.
Proof.
  induction calls as [|[now req] calls IH]; intros r id horizon Hseen Hkept Hall.
  - split; reflexivity.
  - apply Forall_cons in Hall as [[Hid Hnow] Hall]. simpl in Hid, Hnow. subst id.
    destruct (wake_kept now horizon (req_RequestID req) r Hnow Hkept) as [Hlook Hkept1].
    rewrite <- Hlook in Hseen.
    cbn [ExecuteMethod_seq]. unfold ExecuteMethod_at.
    rewrite ExecuteMethod_seen by exact Hseen.
    destruct Hseen as [actual Hactual]. rewrite Hactual, app_nil_r.
    specialize (IH {| ledger := ledger (wake now r); sleeping := sleeping (wake now r) |}
                   (req_RequestID req) horizon (ex_intro _ actual Hactual) Hkept1 Hall).
    destruct (ExecuteMethod_seq _ calls) as [[r2 evs2] resps]. simpl in *.
    destruct IH as [-> ->]. split; reflexivity.
Qed.

(** What the ledger achieves when one [Service] sees all the copies within
    the five minutes it keeps an id: the first call runs the method, every
    later one is a DUPLICATE. *)
Lemma ExecuteMethod_seq_at_most_once
      (r : Running) (now : Z) (req : RPCRequest) (calls : list (Z * RPCRequest)) :
  requestLog (ledger r) !! req_RequestID req = None ->
  Forall (fun t => snd t <> req_RequestID req) (sleeping r) ->
  copies_before (req_RequestID req) (now + retention) calls ->
  let '(_, evs, resps) := ExecuteMethod_seq r ((now, req) :: calls) in
  evs = snd (fst (ExecuteMethod now (ledger (wake now r)) req)) /\
  resps = snd (ExecuteMethod now (ledger (wake now r)) req)
          :: map (fun _ => duplicate_response (req_RequestID req)) calls /\
  requestLog (ledger (wake now r)) !! req_RequestID req = None /\
  Status (snd (ExecuteMethod now (ledger (wake now r)) req)) <> "DUPLICATE"%string.
Proof.
  intros Hnew Hnone Hall.
  assert (kept_until (req_RequestID req) (now + 1) r) as Hkept0.
  { unfold kept_until. eapply Forall_impl; [exact Hnone|].
    intros t Hne Heq. contradiction. }
  destruct (wake_kept now (now + 1) (req_RequestID req) r ltac:(lia) Hkept0)
    as [Hlook _].
  rewrite Hnew in Hlook.
  assert (kept_until (req_RequestID req) (now + retention) (wake now r)) as Hkept1.
  { unfold kept_until, wake. simpl. apply Forall_forall. intros t Hin Heq.
    apply list_elem_of_filter in Hin as [_ Hin].
    rewrite Forall_forall in Hnone. destruct (Hnone t Hin Heq). }
  cbn [ExecuteMethod_seq]. unfold ExecuteMethod_at. rewrite Hlook.
  pose proof (ExecuteMethod_records now (ledger (wake now r)) req) as Hrec.
  pose proof (ExecuteMethod_first now (ledger (wake now r)) req Hlook) as Hfirst.
  destruct (ExecuteMethod now (ledger (wake now r)) req) as [[s1 evs1] resp].
  simpl in Hrec, Hfirst.
  assert (kept_until (req_RequestID req) (now + retention)
            {| ledger := s1;
               sleeping := sleeping (wake now r)
                           ++ [(now + retention, req_RequestID req)] |}) as Hkept2.
  { unfold kept_until in *. simpl. apply Forall_app. split; [exact Hkept1|].
    apply Forall_cons. split; [simpl; lia | exact (Forall_nil_2 _)]. }
  pose proof (ExecuteMethod_seq_seen calls
                {| ledger := s1;
                   sleeping := sleeping (wake now r)
                               ++ [(now + retention, req_RequestID req)] |}
                _ _ Hrec Hkept2 Hall) as Hseq.
  destruct (ExecuteMethod_seq _ calls) as [[r2 evs2] resps]. simpl in Hseq.
  destruct Hseq as [-> ->]. simpl. rewrite app_nil_r. auto.
Qed.

Section Dispatcher.

Variable json_Unmarshal_request : bytes -> result RPCRequest.
Variable json_Marshal_response : RPCResponse -> result bytes.

(** C4. A buffer that [json.Unmarshal] refuses, or that decodes to a
    request with an empty request_id or an empty method, makes
    [ParseInput] fail and the dispatcher send one datagram, the encoding
    of an ERROR response that reports the failure, without entering a
    handler; a buffer that decodes to a request with both fields non-empty
    makes [ParseInput] return that request. *)
Theorem request_validation (now : Z) (buffer : bytes) :
  match json_Unmarshal_request buffer with
  | Err _ => rejected json_Unmarshal_request json_Marshal_response now buffer
  | Ok req =>
    if String.eqb (req_RequestID req) "" || String.eqb (req_Method req) ""
    then rejected json_Unmarshal_request json_Marshal_response now buffer
    else ParseInput json_Unmarshal_request buffer = Ok req
  end.
Proof.
  assert (forall err, ParseInput json_Unmarshal_request buffer = Err err ->
                      rejected json_Unmarshal_request json_Marshal_response now buffer) as Hrej.
  { intros err H. exists err, (error_response "error parsing inputs" err).
    unfold handleMessage, HandleErr. rewrite H. repeat split; reflexivity. }
  unfold rejected, ParseInput in *.
  destruct (json_Unmarshal_request buffer) as [req|err].
  - destruct (String.eqb (req_RequestID req) ""); simpl; [eapply Hrej; reflexivity|].
    destruct (String.eqb (req_Method req) ""); simpl; [eapply Hrej; reflexivity|].
    reflexivity.
  - eapply Hrej; reflexivity.
Qed.

Lemma handleMessage_accepted (now : Z) (buffer : bytes) (req : RPCRequest) :
  ParseInput json_Unmarshal_request buffer = Ok req ->
  handleMessage json_Unmarshal_request json_Marshal_response now buffer
  = fresh_execution json_Marshal_response now req.
Proof.
  intros H. unfold handleMessage, fresh_execution. rewrite H.
  destruct (ExecuteMethod now {| requestLog := ∅ |} req) as [[s' evs] resp].
  destruct (json_Marshal_response resp); reflexivity.
Qed.

(** C1, what the code does.  Every copy of an accepted request that
    reaches [handleMessage] is executed on a [Service] of its own, whose
    ledger is empty: each copy is answered with the result of a first
    execution and none with DUPLICATE. *)
Theorem handleMessage_executes_every_copy
        (times : list Z) (buffer : bytes) (req : RPCRequest) :
  ParseInput json_Unmarshal_request buffer = Ok req ->
  Forall2 (fun now evs =>
             evs = fresh_execution json_Marshal_response now req /\
             Status (snd (ExecuteMethod now {| requestLog := ∅ |} req))
             <> "DUPLICATE"%string)
          times
          (Run json_Unmarshal_request json_Marshal_response
               (map (fun now => (now, buffer)) times)).
Proof.
  intros H. induction times as [|now times IH]; simpl.
  - constructor.
  - constructor; [|exact IH]. split.
    + apply handleMessage_accepted, H.
    + apply ExecuteMethod_first. apply lookup_empty.
Qed.

End Dispatcher.

(** The datagram of [add_5_7_request] delivered twice: both copies enter
    [add] and both are answered OK 12. *)
Lemma handleMessage_executes_every_copy_witness :
  ParseInput example_Unmarshal_request add_5_7_datagram = Ok add_5_7_request /\
  snd (ExecuteMethod 101 {| requestLog := ∅ |} add_5_7_request) = ok_12_response /\
  Run example_Unmarshal_request example_Marshal_response
      [(100, add_5_7_datagram); (101, add_5_7_datagram)]
  = [[Invoked "add" (num_params 5 7); WriteToUDP ok_12_datagram];
     [Invoked "add" (num_params 5 7); WriteToUDP ok_12_datagram]] /\
  Forall2 (fun now evs =>
             evs = fresh_execution example_Marshal_response now add_5_7_request /\
             Status (snd (ExecuteMethod now {| requestLog := ∅ |} add_5_7_request))
             <> "DUPLICATE"%string)
          [100; 101]
          (Run example_Unmarshal_request example_Marshal_response
               [(100, add_5_7_datagram); (101, add_5_7_datagram)]).
Proof.
  split; [vm_compute; reflexivity|]. split; [vm_compute; reflexivity|].
  split; [vm_compute; reflexivity|].
  exact (handleMessage_executes_every_copy
           example_Unmarshal_request example_Marshal_response
           [100; 101] add_5_7_datagram add_5_7_request eq_refl).
Defined.

(** ** The call loop *)

Section CallLoop.

Variable json_Marshal_request : RPCRequest -> result bytes.
Variable json_Unmarshal_response : bytes -> result RPCResponse.
Variable Duration_String : Z -> string.
Variable c : RPCClient.
Variable net : Z -> Outcome.

Lemma attempts_turn (reqData : bytes) (turns : nat) (retry : Z) (lastErr : error) :
  attempts json_Unmarshal_response Duration_String c net
           reqData (S turns) retry lastErr
  = if retry <=? MaxRetries c then
      match definitive json_Unmarshal_response (net retry) with
      | Some resp => ((Some resp, None), [Sent reqData])
      | None =>
        let '(r, evs) :=
          attempts json_Unmarshal_response Duration_String c net
                   reqData turns (retry + 1) (Some (failure json_Unmarshal_response Duration_String c (net retry))) in
        (r, Sent reqData :: backoff c (net retry) retry ++ evs)
      end
    else (exhausted lastErr, []).
Proof.
  cbn [attempts]. destruct (retry <=? MaxRetries c); [|reflexivity].
  unfold definitive, failure, backoff.
  destruct (net retry) as [err|err|data|]; try reflexivity.
  destruct (json_Unmarshal_response data); reflexivity.
Qed.

(** Every buffer the loop sends is [reqData], and it sends at most one per
    turn. *)
Lemma attempts_sent (reqData : bytes) (turns : nat) :
  forall (retry : Z) (lastErr : error),
  exists n : nat,
    sent_data (snd (attempts json_Unmarshal_response Duration_String c net
                             reqData turns retry lastErr))
    = repeat reqData n /\ (n <= turns)%nat.
Proof.
  induction turns as [|turns IH]; intros retry lastErr.
  - exists 0%nat. split; [reflexivity | lia].
  - rewrite attempts_turn. destruct (retry <=? MaxRetries c).
    + destruct (definitive json_Unmarshal_response (net retry)) as [resp|].
      * exists 1%nat. split; [reflexivity | lia].
      * destruct (IH (retry + 1) (Some (failure json_Unmarshal_response Duration_String c (net retry)))) as (n & Hn & Hle).
        destruct (attempts _ _ _ _ _ _ _ _) as [r evs]. simpl in *.
        exists (S n). split; [|lia].
        unfold sent_data in *. rewrite omap_app. 
        replace (omap _ (backoff c (net retry) retry)) with (@nil bytes).
        -- simpl. rewrite Hn. reflexivity.
        -- unfold backoff. destruct (net retry); try reflexivity;
             destruct (retry <? MaxRetries c); reflexivity.
    + exists 0%nat. split; [reflexivity | lia].
Qed.

(** The loop with all its turns ahead: no turn from [retry] on is
    definitive. *)
Lemma attempts_exhausted (reqData : bytes) (turns : nat) :
  forall (retry : Z) (lastErr : error),
    retry + Z.of_nat turns = MaxRetries c + 1 ->
    (forall k, retry <= k <= MaxRetries c -> definitive json_Unmarshal_response (net k) = None) ->
    attempts json_Unmarshal_response Duration_String c net
             reqData turns retry lastErr
    = (exhausted (match turns with
                  | O => lastErr
                  | S _ => Some (failure json_Unmarshal_response Duration_String c (net (MaxRetries c)))
                  end),
       snd (attempts json_Unmarshal_response Duration_String c net
                     reqData turns retry lastErr)) /\
    sent_data (snd (attempts json_Unmarshal_response Duration_String c net
                             reqData turns retry lastErr))
    = repeat reqData turns.
Proof.
  induction turns as [|turns IH]; intros retry lastErr Hturns Hnone.
  - split; reflexivity.
  - rewrite attempts_turn.
    destruct (Z.leb_spec retry (MaxRetries c)); [|lia].
    rewrite (Hnone retry) by lia.
    destruct (IH (retry + 1) (Some (failure json_Unmarshal_response Duration_String c (net retry)))) as [Hres Hsent];
      [lia | intros k Hk; apply Hnone; lia |].
    destruct (attempts _ _ _ _ _ _ _ _) as [r evs]. simpl in *.
    injection Hres as ->. split.
    + destruct turns; [|reflexivity].
      replace (MaxRetries c) with retry by lia. reflexivity.
    + unfold sent_data in *. rewrite omap_app.
      replace (omap _ (backoff c (net retry) retry)) with (@nil bytes).
      * simpl. rewrite Hsent. reflexivity.
      * unfold backoff. destruct (net retry); try reflexivity;
          destruct (retry <? MaxRetries c); reflexivity.
Qed.

(** The loop with all its turns ahead returns the response of the first
    definitive turn. *)
Lemma attempts_definitive (reqData : bytes) (turns : nat) :
  forall (retry : Z) (lastErr : error) (k : Z) (resp : RPCResponse),
    retry + Z.of_nat turns = MaxRetries c + 1 ->
    retry <= k <= MaxRetries c ->
    (forall i, retry <= i < k -> definitive json_Unmarshal_response (net i) = None) ->
    definitive json_Unmarshal_response (net k) = Some resp ->
    fst (attempts json_Unmarshal_response Duration_String c net
                  reqData turns retry lastErr)
    = (Some resp, None).
Proof.
  induction turns as [|turns IH]; intros retry lastErr k resp Hturns Hk Hnone Hdef.
  - lia.
  - rewrite attempts_turn.
    destruct (Z.leb_spec retry (MaxRetries c)); [|lia].
    destruct (decide (k = retry)) as [->|Hne].
    + rewrite Hdef. reflexivity.
    + rewrite (Hnone retry) by lia.
      specialize (IH (retry + 1) (Some (failure json_Unmarshal_response Duration_String c (net retry))) k resp).
      destruct (attempts _ _ _ _ _ _ _ _) as [r evs]. simpl in *.
      apply IH; [lia | lia | intros i Hi; apply Hnone; lia | exact Hdef].
Qed.

End CallLoop.

Section CallProperties.

Variable json_Marshal_request : RPCRequest -> result bytes.
Variable json_Unmarshal_response : bytes -> result RPCResponse.
Variable Duration_String : Z -> string.
Variable c : RPCClient.
Variable net : Z -> Outcome.

Lemma Call_marshalled (env : Readings) (method : string) (params : gomap)
      (reqData : bytes) :
  json_Marshal_request (call_request env method params) = Ok reqData ->
  Call json_Marshal_request json_Unmarshal_response Duration_String c net
       env method params
  = attempts json_Unmarshal_response Duration_String c net
             reqData (Z.to_nat (MaxRetries c + 1)) 0 None.
Proof. unfold Call, call_request. intros ->. reflexivity. Qed.

(** Some turn within the bound is definitive: the loop returns a response
    and a nil error. *)
Lemma attempts_answered (reqData : bytes) (turns : nat) :
  forall (retry : Z) (lastErr : error) (k : Z),
    retry + Z.of_nat turns = MaxRetries c + 1 ->
    retry <= k <= MaxRetries c ->
    is_Some (definitive json_Unmarshal_response (net k)) ->
    exists resp,
      fst (attempts json_Unmarshal_response Duration_String c net
                    reqData turns retry lastErr)
      = (Some resp, None).
Proof.
  induction turns as [|turns IH]; intros retry lastErr k Hturns Hk Hdef.
  - lia.
  - rewrite attempts_turn.
    destruct (Z.leb_spec retry (MaxRetries c)); [|lia].
    destruct (definitive json_Unmarshal_response (net retry)) as [resp|] eqn:Hr.
    + exists resp. reflexivity.
    + assert (k <> retry) as Hne.
      { intros ->. rewrite Hr in Hdef. destruct Hdef; discriminate. }
      destruct (IH (retry + 1)
                   (Some (failure json_Unmarshal_response Duration_String c (net retry)))
                   k) as [resp Hresp]; [lia | lia | exact Hdef |].
      exists resp.
      destruct (attempts _ _ _ _ _ _ _ _) as [r evs]. exact Hresp.
Qed.

(** C8. [Call] marshals one request, the one carrying the id it has just
    generated; when that fails it sends nothing, and otherwise every
    buffer it hands to [WriteToUDP], on the first turn and on every retry,
    is that one encoding -- at least one (when the loop has a turn) and at
    most [MaxRetries + 1] of them. *)
Theorem Call_sends_one_encoding
        (env : Readings) (method : string) (params : gomap) :
  req_RequestID (call_request env method params)
  = generateRequestID (clock_nano env) (rand_1000 env) /\
  match json_Marshal_request (call_request env method params) with
  | Err err =>
    Call json_Marshal_request json_Unmarshal_response Duration_String c net
         env method params = ((None, Some err), [])
  | Ok reqData =>
    exists n : nat,
      sent_data (snd (Call json_Marshal_request json_Unmarshal_response
                           Duration_String c net env method params))
      = repeat reqData n /\
      (Nat.min 1 (Z.to_nat (MaxRetries c + 1)) <= n
       <= Z.to_nat (MaxRetries c + 1))%nat
  end.
Proof.
  split; [reflexivity|].
  destruct (json_Marshal_request (call_request env method params))
    as [reqData|err] eqn:Hm.
  - rewrite (Call_marshalled _ _ _ _ Hm).
    destruct (Z.to_nat (MaxRetries c + 1)) as [|turns] eqn:Hturns.
    + exists 0%nat. split; [reflexivity | lia].
    + rewrite attempts_turn.
      destruct (Z.leb_spec 0 (MaxRetries c)); [|lia].
      destruct (definitive json_Unmarshal_response (net 0)) as [resp|].
      * exists 1%nat. split; [reflexivity | lia].
      * destruct (attempts_sent json_Unmarshal_response Duration_String c net
                    reqData turns (0 + 1)
                    (Some (failure json_Unmarshal_response Duration_String c (net 0))))
          as (n & Hn & Hle).
        destruct (attempts _ _ _ _ _ _ _ _) as [r evs]. simpl in *.
        exists (S n). split; [|lia].
        unfold sent_data in *. rewrite omap_app.
        replace (omap _ (backoff c (net 0) 0)) with (@nil bytes).
        -- simpl. rewrite Hn. reflexivity.
        -- unfold backoff. destruct (net 0); try reflexivity;
             destruct (0 <? MaxRetries c); reflexivity.
  - unfold Call. fold (call_request env method params). rewrite Hm. reflexivity.
Qed.

(** X15. With the request marshalled and [MaxRetries] not negative: when
    on none of the [MaxRetries + 1] turns the [select] takes a response
    (each turn ends in a failed send, a failed read, a datagram that does
    not decode, or the deadline), [Call] sends [MaxRetries + 1] times and
    returns no response and the error "max retries exceeded: " followed by
    the error of the last turn. *)
Theorem Call_exhaustion
        (env : Readings) (method : string) (params : gomap) (reqData : bytes) :
  json_Marshal_request (call_request env method params) = Ok reqData ->
  0 <= MaxRetries c ->
  (forall k, 0 <= k <= MaxRetries c ->
             definitive json_Unmarshal_response (net k) = None) ->
  fst (Call json_Marshal_request json_Unmarshal_response Duration_String c net
            env method params)
  = (None,
     Some ("max retries exceeded: " +:+
           failure json_Unmarshal_response Duration_String c (net (MaxRetries c))))
  /\
  sent_data (snd (Call json_Marshal_request json_Unmarshal_response
                       Duration_String c net env method params))
  = repeat reqData (Z.to_nat (MaxRetries c + 1)).
Proof.
  intros Hm Hmax Hnone. rewrite (Call_marshalled _ _ _ _ Hm).
  destruct (attempts_exhausted json_Unmarshal_response Duration_String c net
              reqData (Z.to_nat (MaxRetries c + 1)) 0 None)
    as [Hres Hsent]; [lia | exact Hnone |].
  split; [|exact Hsent]. rewrite Hres. simpl.
  destruct (Z.to_nat (MaxRetries c + 1)) eqn:Hturns; [lia | reflexivity].
Qed.

(** The response the [select] of the first definitive turn takes is what
    [Call] returns. *)
Lemma Call_returns_select_response
      (env : Readings) (method : string) (params : gomap) (reqData : bytes)
      (k : Z) (resp : RPCResponse) :
  json_Marshal_request (call_request env method params) = Ok reqData ->
  0 <= k <= MaxRetries c ->
  (forall i, 0 <= i < k -> definitive json_Unmarshal_response (net i) = None) ->
  definitive json_Unmarshal_response (net k) = Some resp ->
  fst (Call json_Marshal_request json_Unmarshal_response Duration_String c net
            env method params)
  = (Some resp, None).
Proof.
  intros Hm Hk Hnone Hdef. rewrite (Call_marshalled _ _ _ _ Hm).
  apply (attempts_definitive json_Unmarshal_response Duration_String c net
           reqData _ 0 None k resp); [lia | exact Hk | exact Hnone | exact Hdef].
Qed.

End CallProperties.

Lemma Call_exhaustion_witness :
  example_Marshal_request (call_request example_env "get_time" (Some ∅))
  = Ok get_time_datagram /\
  0 <= MaxRetries example_client /\
  fst (Call example_Marshal_request example_Unmarshal_response
            example_Duration_String example_client silent_net
            example_env "get_time" (Some ∅))
  = (None, Some "max retries exceeded: timeout after 2s"%string) /\
  sent_data (snd (Call example_Marshal_request example_Unmarshal_response
                       example_Duration_String example_client silent_net
                       example_env "get_time" (Some ∅)))
  = [get_time_datagram; get_time_datagram; get_time_datagram].
Proof.
  assert (example_Marshal_request (call_request example_env "get_time" (Some ∅))
          = Ok get_time_datagram) as Hm by (vm_compute; reflexivity).
  assert (0 <= MaxRetries example_client) as Hmax by (simpl; lia).
  split; [exact Hm|]. split; [exact Hmax|].
  exact (Call_exhaustion
           example_Marshal_request example_Unmarshal_response
           example_Duration_String example_client silent_net
           example_env "get_time" (Some ∅) get_time_datagram Hm Hmax
           (fun k _ => eq_refl)).
Defined.

(** ** The call on the socket *)

(** A turn whose send succeeds, during which the readers in line take all
    that is at hand, and after which nothing comes: its [select] ends at
    the deadline and its reader joins the line. *)
Lemma turn_outcome_deadline (sock : Socket) (t : Turn) :
  write_error t = None ->
  afterwards t = [] ->
  drop (waiting sock) (unread sock ++ in_time t) = [] ->
  turn_outcome sock t
  = (DeadlineExceeded,
     {| waiting := S (waiting sock - length (unread sock ++ in_time t));
        unread := [] |}).
Proof.
  intros Hw Ha Hd. unfold turn_outcome, arrive. rewrite Hw, Hd, Ha. simpl.
  reflexivity.
Qed.

(** On a fresh socket that gets one datagram, during a turn after the
    first: before every turn nothing is unread, and from the second turn on
    a reader is in line. *)
Lemma answered_late_line (data : bytes) (j : nat) :
  (1 <= j)%nat ->
  forall n : nat,
    unread (socket_before (answered_late data j) fresh_socket n) = [] /\
    ((1 <= n)%nat ->
     (1 <= waiting (socket_before (answered_late data j) fresh_socket n))%nat) /\
    drop (waiting (socket_before (answered_late data j) fresh_socket n))
         (unread (socket_before (answered_late data j) fresh_socket n)
          ++ in_time (answered_late data j n)) = [].
Proof.
  intros Hj.
  assert (forall (sock : Socket) (n : nat),
            unread sock = [] -> ((1 <= n)%nat -> (1 <= waiting sock)%nat) ->
            drop (waiting sock) (unread sock ++ in_time (answered_late data j n)) = [])
    as Hdrop.
  { intros sock n Hu Hw. rewrite Hu. unfold answered_late.
    destruct (Nat.eqb_spec n j) as [->|Hne]; simpl.
    - specialize (Hw Hj). destruct (waiting sock); [lia | simpl; apply drop_nil].
    - apply drop_nil. }
  induction n as [|n (IHu & IHw & IHd)].
  - cbn [socket_before]. split; [reflexivity|]. split; [lia|].
    apply Hdrop; [reflexivity | lia].
  - assert (write_error (answered_late data j n) = None) as Hwe
        by (unfold answered_late; destruct (Nat.eqb n j); reflexivity).
    assert (afterwards (answered_late data j n) = []) as Haf
        by (unfold answered_late; destruct (Nat.eqb n j); reflexivity).
    cbn [socket_before].
    rewrite (turn_outcome_deadline _ _ Hwe Haf IHd). cbn [snd].
    split; [reflexivity|]. split; [simpl; lia|].
    apply Hdrop; [reflexivity | simpl; lia].
Qed.

Section CallOnSocket.

Variable json_Marshal_request : RPCRequest -> result bytes.
Variable json_Unmarshal_response : bytes -> result RPCResponse.
Variable Duration_String : Z -> string.
Variable c : RPCClient.

(** C2, as the code has it.  [Call] compares no request id.  On any socket:
    when turn [k] is the first whose [select] takes a response -- the
    reader of that turn got a datagram, after the readers in line before
    it were served, and it decodes -- [Call] returns that response as it
    is, whatever its request id.  In particular, with no reader in line
    and nothing unread, the first datagram that comes in time during the
    first turn is returned when it decodes, after one send. *)
Theorem Call_returns_unchecked
        (env : Readings) (method : string) (params : gomap) (reqData : bytes)
        (turns : nat -> Turn) (sock : Socket) :
  json_Marshal_request (call_request env method params) = Ok reqData ->
  (forall (k : Z) (data : bytes) (resp : RPCResponse),
      0 <= k <= MaxRetries c ->
      (forall i, 0 <= i < k ->
                 definitive json_Unmarshal_response (socket_net turns sock i) = None) ->
      socket_net turns sock k = Datagram data ->
      json_Unmarshal_response data = Ok resp ->
      fst (Call json_Marshal_request json_Unmarshal_response Duration_String c
                (socket_net turns sock) env method params)
      = (Some resp, None)) /\
  (forall (data : bytes) (rest : list ReadResult) (resp : RPCResponse),
      0 <= MaxRetries c ->
      waiting sock = 0%nat ->
      unread sock = [] ->
      write_error (turns 0%nat) = None ->
      in_time (turns 0%nat) = Received data :: rest ->
      json_Unmarshal_response data = Ok resp ->
      Call json_Marshal_request json_Unmarshal_response Duration_String c
           (socket_net turns sock) env method params
      = ((Some resp, None), [Sent reqData])).
Proof.
  intros Hm. split.
  - intros k data resp Hk Hnone Hnet Hdec.
    apply (Call_returns_select_response
             json_Marshal_request json_Unmarshal_response Duration_String c
             (socket_net turns sock) env method params reqData k resp
             Hm Hk Hnone).
    unfold definitive. rewrite Hnet, Hdec. reflexivity.
  - intros data rest resp Hmax Hw Hu Hwe Hin Hdec.
    rewrite (Call_marshalled _ _ _ _ _ _ _ _ _ Hm).
    destruct (Z.to_nat (MaxRetries c + 1)) as [|n] eqn:Hn; [lia|].
    rewrite attempts_turn.
    destruct (Z.leb_spec 0 (MaxRetries c)); [|lia].
    assert (socket_net turns sock 0 = Datagram data) as Hnet.
    { unfold socket_net. change (Z.to_nat 0) with 0%nat. cbn [socket_before].
      unfold turn_outcome. rewrite Hwe, Hw, Hu, Hin. reflexivity. }
    unfold definitive. rewrite Hnet, Hdec. reflexivity.
Qed.

(** C7, what the code does.  The request is marshalled and the socket is
    fresh.  Nothing comes during the first turn: its [select] ends at the
    deadline and its reader stays in [ReadFromUDP].  One datagram comes,
    in time during a later turn [j] of the call, and it decodes to a
    response.  The oldest reader in line takes it, decodes it and blocks
    in its send: no [select] ever takes it, every turn ends at its
    deadline, one more reader joins the line each time, and after
    [MaxRetries + 1] sends [Call] returns no response and the error
    "max retries exceeded: timeout after <Timeout>". *)
Theorem Call_exhausted_despite_response
        (env : Readings) (method : string) (params : gomap) (reqData : bytes)
        (data : bytes) (resp : RPCResponse) (j : nat) :
  json_Marshal_request (call_request env method params) = Ok reqData ->
  json_Unmarshal_response data = Ok resp ->
  (1 <= j)%nat ->
  Z.of_nat j <= MaxRetries c ->
  taken_by_earlier (socket_before (answered_late data j) fresh_socket j)
                   (answered_late data j j)
  = [Received data] /\
  fst (Call json_Marshal_request json_Unmarshal_response Duration_String c
            (socket_net (answered_late data j) fresh_socket) env method params)
  = (None, Some ("max retries exceeded: timeout after "
                   +:+ Duration_String (Timeout c))) /\
  sent_data (snd (Call json_Marshal_request json_Unmarshal_response
                       Duration_String c
                       (socket_net (answered_late data j) fresh_socket)
                       env method params))
  = repeat reqData (Z.to_nat (MaxRetries c + 1)).
Proof.
  intros Hm Hdec Hj Hmax.
  pose proof (answered_late_line data j Hj) as Hline.
  assert (forall k : Z,
            socket_net (answered_late data j) fresh_socket k = DeadlineExceeded)
    as Hnet.
  { intros k. unfold socket_net.
    destruct (Hline (Z.to_nat k)) as (_ & _ & Hd).
    rewrite turn_outcome_deadline; [reflexivity | | | exact Hd];
      unfold answered_late; destruct (Nat.eqb (Z.to_nat k) j); reflexivity. }
  split.
  - destruct (Hline j) as (Hu & Hw & _). specialize (Hw Hj).
    unfold taken_by_earlier. rewrite Hu. unfold answered_late.
    rewrite Nat.eqb_refl. simpl.
    destruct (waiting _); [lia|]. simpl. rewrite take_nil. reflexivity.
  - rewrite (Call_marshalled _ _ _ _ _ _ _ _ _ Hm).
    destruct (attempts_exhausted json_Unmarshal_response Duration_String c
                (socket_net (answered_late data j) fresh_socket)
                reqData (Z.to_nat (MaxRetries c + 1)) 0 None)
      as [Hres Hsent]; [lia | intros k _; rewrite Hnet; reflexivity |].
    split; [|exact Hsent]. rewrite Hres, Hnet. simpl.
    destruct (Z.to_nat (MaxRetries c + 1)) eqn:Hturns; [lia | reflexivity].
Qed.

End CallOnSocket.

Lemma Call_returns_unchecked_witness :
  example_Marshal_request (call_request example_env "echo" (Some ∅))
  = Ok echo_datagram /\
  socket_net late_after_answer fresh_socket 0 = DeadlineExceeded /\
  taken_by_earlier (socket_before late_after_answer fresh_socket 1)
                   (late_after_answer 1)
  = [Received echo_response_datagram] /\
  socket_net late_after_answer fresh_socket 1 = Datagram late_datagram /\
  both_Unmarshal_response late_datagram = Ok late_response /\
  String.eqb (RequestID late_response)
             (generateRequestID (clock_nano example_env) (rand_1000 example_env))
  = false /\
  fst (Call example_Marshal_request both_Unmarshal_response
            example_Duration_String example_client
            (socket_net late_after_answer fresh_socket)
            example_env "echo" (Some ∅))
  = (Some late_response, None).
Proof.
  assert (example_Marshal_request (call_request example_env "echo" (Some ∅))
          = Ok echo_datagram) as Hm by (vm_compute; reflexivity).
  assert (0 <= 1 <= MaxRetries example_client) as Hk by (simpl; lia).
  assert (forall i, 0 <= i < 1 ->
            definitive both_Unmarshal_response
                       (socket_net late_after_answer fresh_socket i) = None)
    as Hnone.
  { intros i Hi. replace i with 0 by lia. reflexivity. }
  assert (socket_net late_after_answer fresh_socket 1 = Datagram late_datagram)
    as Hnet by reflexivity.
  assert (both_Unmarshal_response late_datagram = Ok late_response) as Hdec
      by (vm_compute; reflexivity).
  split; [exact Hm|]. split; [reflexivity|]. split; [reflexivity|].
  split; [exact Hnet|]. split; [exact Hdec|]. split; [vm_compute; reflexivity|].
  exact (proj1 (Call_returns_unchecked
                  example_Marshal_request both_Unmarshal_response
                  example_Duration_String example_client
                  example_env "echo" (Some ∅) echo_datagram
                  late_after_answer fresh_socket Hm)
               1 late_datagram late_response Hk Hnone Hnet Hdec).
Defined.

Lemma Call_exhausted_despite_response_witness :
  example_Marshal_request (call_request example_env "echo" (Some ∅))
  = Ok echo_datagram /\
  echo_Unmarshal_response echo_response_datagram = Ok echo_response /\
  RequestID echo_response
  = generateRequestID (clock_nano example_env) (rand_1000 example_env) /\
  (1 <= 1)%nat /\
  Z.of_nat 1 <= MaxRetries example_client /\
  taken_by_earlier
    (socket_before (answered_late echo_response_datagram 1) fresh_socket 1)
    (answered_late echo_response_datagram 1 1)
  = [Received echo_response_datagram] /\
  fst (Call example_Marshal_request echo_Unmarshal_response
            example_Duration_String example_client
            (socket_net (answered_late echo_response_datagram 1) fresh_socket)
            example_env "echo" (Some ∅))
  = (None, Some "max retries exceeded: timeout after 2s"%string) /\
  sent_data (snd (Call example_Marshal_request echo_Unmarshal_response
                       example_Duration_String example_client
                       (socket_net (answered_late echo_response_datagram 1)
                                   fresh_socket)
                       example_env "echo" (Some ∅)))
  = [echo_datagram; echo_datagram; echo_datagram].
Proof.
  assert (example_Marshal_request (call_request example_env "echo" (Some ∅))
          = Ok echo_datagram) as Hm by (vm_compute; reflexivity).
  assert (echo_Unmarshal_response echo_response_datagram = Ok echo_response)
    as Hdec by (vm_compute; reflexivity).
  assert (Z.of_nat 1 <= MaxRetries example_client) as Hmax by (simpl; lia).
  split; [exact Hm|]. split; [exact Hdec|]. split; [vm_compute; reflexivity|].
  split; [lia|]. split; [exact Hmax|].
  exact (Call_exhausted_despite_response
           example_Marshal_request echo_Unmarshal_response
           example_Duration_String example_client
           example_env "echo" (Some ∅) echo_datagram
           echo_response_datagram echo_response 1
           Hm Hdec (le_n 1) Hmax).
Defined.

(** C2, a counterexample.  The call generates the id
    [1700000000000000000-42]; the first datagram it reads is the response
    to the earlier call [1699999999000000000-7]; [Call] returns that
    response as the result of the call. *)
Lemma Call_returns_foreign_response :
  generateRequestID (clock_nano example_env) (rand_1000 example_env)
  = "1700000000000000000-42"%string /\
  RequestID late_response = "1699999999000000000-7"%string /\
  String.eqb (RequestID late_response)
             (generateRequestID (clock_nano example_env) (rand_1000 example_env))
  = false /\
  Call example_Marshal_request example_Unmarshal_response
       example_Duration_String example_client late_net
       example_env "get_time" (Some ∅)
  = ((Some late_response, None), [Sent get_time_datagram]).
Proof. repeat split; vm_compute; reflexivity. Qed.

(** ** Request identifiers *)

Lemma dash_free_app_dash (s t : string) :
  dash_free (s +:+ String "-" t) = false.
Proof.
  induction s as [|ch s IH]; simpl.
  - reflexivity.
  - rewrite IH. apply andb_false_r.
Qed.

(** Two texts [s-t] with no minus sign after the separator agree only when
    their parts do: the separator is the last minus sign. *)
Lemma split_at_last_dash (s1 : string) :
  forall s2 t1 t2 : string,
    dash_free t1 = true -> dash_free t2 = true ->
    s1 +:+ String "-" t1 = s2 +:+ String "-" t2 ->
    s1 = s2 /\ t1 = t2.
Proof.
  induction s1 as [|ch1 s1 IH]; intros [|ch2 s2] t1 t2 H1 H2 Heq;
    cbn [append] in Heq.
  - injection Heq as Heq. split; [reflexivity | exact Heq].
  - injection Heq as Hch Heq.
    rewrite Heq, dash_free_app_dash in H1. discriminate.
  - injection Heq as Hch Heq.
    rewrite <- Heq, dash_free_app_dash in H2. discriminate.
  - injection Heq as Hch Heq. subst ch2.
    destruct (IH s2 t1 t2 H1 H2 Heq) as [-> ->]. split; reflexivity.
Qed.

Lemma pretty_N_char_dash_free (x : N) :
  Ascii.eqb (pretty_N_char x) "-" = false.
Proof. unfold pretty_N_char. repeat case_match; reflexivity. Qed.

Lemma pretty_N_go_dash_free (x : N) :
  forall s, dash_free s = true -> dash_free (pretty_N_go x s) = true.
Proof.
  induction (N.lt_wf_0 x) as [x _ IH]; intros s Hs.
  destruct (decide (x = 0)%N) as [->|Hx].
  - rewrite pretty_N_go_0. exact Hs.
  - rewrite pretty_N_go_step by lia.
    apply IH; [apply N.div_lt; lia|].
    simpl. rewrite pretty_N_char_dash_free, Hs. reflexivity.
Qed.

(** [%d] of a number that is not negative prints no minus sign. *)
Lemma pretty_nonneg_dash_free (z : Z) : 0 <= z -> dash_free (pretty z) = true.
Proof.
  intros Hz. destruct z as [|p|p]; [reflexivity | | lia].
  unfold pretty, pretty_Z, pretty, pretty_positive, pretty, pretty_N.
  case_decide; [reflexivity|]. apply pretty_N_go_dash_free. reflexivity.
Qed.

(** C9, as the code has it.  An identifier determines the two readings it
    was printed from, the discriminator being in the range of
    [rand.Intn]: two invocations produce the same identifier exactly when
    they read the same clock value and draw the same discriminator. *)
Theorem generateRequestID_injective (nano nano' rnd rnd' : Z) :
  0 <= rnd -> 0 <= rnd' ->
  (generateRequestID nano rnd = generateRequestID nano' rnd'
   <-> nano = nano' /\ rnd = rnd').
Proof.
  intros Hr Hr'. split.
  - unfold generateRequestID. intros Heq.
    change (pretty nano +:+ String "-" (pretty rnd)
            = pretty nano' +:+ String "-" (pretty rnd')) in Heq.
    apply split_at_last_dash in Heq as [Hn Hd];
      [| apply pretty_nonneg_dash_free; assumption ..].
    apply (inj pretty) in Hn. apply (inj pretty) in Hd. auto.
  - intros [-> ->]. reflexivity.
Qed.

Lemma generateRequestID_injective_witness :
  0 <= 42 /\ 0 <= 43 /\
  (generateRequestID 1700000000000000000 42
   = generateRequestID 1700000000000000000 43
   <-> 1700000000000000000 = 1700000000000000000 /\ 42 = 43).
Proof.
  split; [lia|]. split; [lia|].
  apply generateRequestID_injective; lia.
Defined.

(** C9, a counterexample.  Two invocations that read the same nanosecond
    and draw the same discriminator, 42 of the thousand values, produce
    the same identifier. *)
Lemma generateRequestID_collision :
  forallb possible_reading
          [(1700000000000000000, 42); (1700000000000000000, 42)] = true /\
  identifiers [(1700000000000000000, 42); (1700000000000000000, 42)]
  = ["1700000000000000000-42"%string; "1700000000000000000-42"%string].
Proof. split; vm_compute; reflexivity. Qed.

(** ** Strings and rune slices: the conversions agree *)

(** Bit operations on the ranges the conversions use, as arithmetic. *)
Lemma lor_disjoint (n a b : Z) :
  0 <= n -> a mod 2 ^ n = 0 -> 0 <= b < 2 ^ n -> Z.lor a b = a + b.
Proof.
  intros Hn Ha Hb.
  assert (Z.land a b = 0) as Hland.
  { apply Z.bits_inj'. intros i Hi. rewrite Z.land_spec, Z.bits_0.
    destruct (Z.lt_ge_cases i n) as [Hlt|Hge].
    - replace a with (a / 2 ^ n * 2 ^ n)
        by (pose proof (Z.div_mod a (2 ^ n)); lia).
      rewrite Z.mul_pow2_bits_low by lia. reflexivity.
    - replace b with (b mod 2 ^ n) by (apply Z.mod_small; lia).
      rewrite Z.mod_pow2_bits_high by lia. apply andb_false_r. }
  rewrite <- Z.lxor_lor by exact Hland.
  symmetry. apply Z.add_nocarry_lxor. exact Hland.
Qed.

Lemma land_low_bits (n x : Z) : 0 <= n -> Z.land x (2 ^ n - 1) = x mod 2 ^ n.
Proof.
  intros Hn. rewrite <- Z.land_ones by exact Hn.
  rewrite Z.ones_equiv, Z.sub_1_r. reflexivity.
Qed.

Lemma ord_range (ch : ascii) : 0 <= Utf8.ord ch < 256.
Proof.
  unfold Utf8.ord. pose proof (N_ascii_bounded ch). lia.
Qed.

Lemma ord_chr (x : Z) : Utf8.ord (Utf8.chr x) = x mod 256.
Proof.
  unfold Utf8.ord, Utf8.chr.
  change 0xFF with (2 ^ 8 - 1). rewrite land_low_bits by lia.
  change (2 ^ 8) with 256.
  pose proof (Z.mod_pos_bound x 256 ltac:(lia)).
  rewrite N_ascii_embedding by lia. lia.
Qed.

Lemma range_test_false (a r b : Z) :
  ~ (a <= r <= b) -> (a <=? r) && (r <=? b) = false.
Proof.
  intros H. destruct (Z.leb_spec a r), (Z.leb_spec r b); try reflexivity. lia.
Qed.

Ltac norm_pow :=
  repeat first
    [ progress change (2 ^ 3) with 8 in *
    | progress change (2 ^ 4) with 16 in *
    | progress change (2 ^ 5) with 32 in *
    | progress change (2 ^ 6) with 64 in *
    | progress change (2 ^ 8) with 256 in *
    | progress change (2 ^ 12) with 4096 in *
    | progress change (2 ^ 18) with 262144 in *
    | progress change (2 ^ 32) with 4294967296 in * ].

(** Linear arithmetic with division and remainder by constants. *)
Ltac divmod_lia := norm_pow; Z.div_mod_to_equations; lia.

(** Masks and shifts become remainders, quotients and products. *)
Ltac arith_bits :=
  repeat first
    [ rewrite Z.shiftr_div_pow2 by lia
    | rewrite Z.shiftl_mul_pow2 by lia
    | progress change 0xFF with (2 ^ 8 - 1)
    | progress change 0x3F with (2 ^ 6 - 1)
    | progress change 0x1F with (2 ^ 5 - 1)
    | progress change 0x0F with (2 ^ 4 - 1)
    | progress change 0x07 with (2 ^ 3 - 1)
    | rewrite land_low_bits by lia ].

(** An [or] of parts that share no bit becomes a sum. *)
Ltac arith_lor :=
  repeat match goal with
  | |- context [Z.lor ?a ?b] =>
    first [ rewrite (lor_disjoint 6 a b) by divmod_lia
          | rewrite (lor_disjoint 12 a b) by divmod_lia
          | rewrite (lor_disjoint 18 a b) by divmod_lia
          | rewrite (lor_disjoint 5 a b) by divmod_lia
          | rewrite (lor_disjoint 4 a b) by divmod_lia ]
  end.

(** The comparisons of the goal that the context settles are replaced by
    their values. *)
Ltac decide_tests :=
  repeat (match goal with
  | |- context [(?a <=? ?r) && (?r <=? ?b)] =>
    rewrite (range_test_false a r b) by divmod_lia
  | |- context [?a <=? ?b] =>
    first [ rewrite (proj2 (Z.leb_le a b)) by divmod_lia
          | rewrite (proj2 (Z.leb_gt a b)) by divmod_lia ]
  | |- context [?a <? ?b] =>
    first [ rewrite (proj2 (Z.ltb_lt a b)) by divmod_lia
          | rewrite (proj2 (Z.ltb_ge a b)) by divmod_lia ]
  end; cbn [andb orb negb]).

Ltac unfold_consts :=
  unfold Utf8.runeSelf, Utf8.t2, Utf8.t3, Utf8.t4, Utf8.t5, Utf8.tx, Utf8.is_cont,
    Utf8.locb, Utf8.hicb, Utf8.mask2, Utf8.mask3, Utf8.mask4, Utf8.maskx,
    Utf8.rune1Max, Utf8.rune2Max, Utf8.rune3Max, Utf8.maxRune,
    Utf8.surrogateMin, Utf8.surrogateMax, Utf8.runeError in *.

Ltac same_bytes :=
  repeat (apply (f_equal2 String); [apply (f_equal Utf8.chr)|]);
  try reflexivity; divmod_lia.

(** The bytes [encoderune] writes, by the length of the encoding. *)
Lemma encoderune_1 (r : Z) :
  0 <= r <= 0x7F -> Utf8.encoderune r = String (Utf8.chr r) EmptyString.
Proof.
  intros Hr. unfold Utf8.encoderune.
  rewrite (Z.mod_small r (2 ^ 32)) by lia. unfold_consts. decide_tests.
  reflexivity.
Qed.

Lemma encoderune_2 (r : Z) :
  0x80 <= r <= 0x7FF ->
  Utf8.encoderune r
  = String (Utf8.chr (192 + r / 64))
   (String (Utf8.chr (128 + r mod 64)) EmptyString).
Proof.
  intros Hr. unfold Utf8.encoderune.
  rewrite (Z.mod_small r (2 ^ 32)) by lia.
  unfold_consts. decide_tests. arith_bits. arith_lor. same_bytes.
Qed.

Lemma encoderune_3 (r : Z) :
  0x800 <= r <= 0xFFFF -> ~ (0xD800 <= r <= 0xDFFF) ->
  Utf8.encoderune r
  = String (Utf8.chr (224 + r / 4096))
   (String (Utf8.chr (128 + (r / 64) mod 64))
   (String (Utf8.chr (128 + r mod 64)) EmptyString)).
Proof.
  intros Hr Hs. unfold Utf8.encoderune.
  rewrite (Z.mod_small r (2 ^ 32)) by lia.
  unfold_consts. decide_tests. arith_bits. arith_lor. same_bytes.
Qed.

Lemma encoderune_4 (r : Z) :
  0x10000 <= r <= 0x10FFFF ->
  Utf8.encoderune r
  = String (Utf8.chr (240 + r / 262144))
   (String (Utf8.chr (128 + (r / 4096) mod 64))
   (String (Utf8.chr (128 + (r / 64) mod 64))
   (String (Utf8.chr (128 + r mod 64)) EmptyString))).
Proof.
  intros Hr. unfold Utf8.encoderune.
  rewrite (Z.mod_small r (2 ^ 32)) by lia.
  unfold_consts. decide_tests. arith_bits. arith_lor. same_bytes.
Qed.

(** The range loop reads those bytes back as the rune. *)
Lemma range_runes_1 (r : Z) (rest : string) :
  0 <= r <= 0x7F ->
  Utf8.range_runes 0 (String (Utf8.chr r) rest) = r :: Utf8.range_runes 0 rest.
Proof.
  intros Hr. cbn [Utf8.range_runes]. rewrite !ord_chr.
  rewrite (Z.mod_small r 256) by lia. unfold_consts. decide_tests. reflexivity.
Qed.

Lemma range_runes_2 (r : Z) (rest : string) :
  0x80 <= r <= 0x7FF ->
  Utf8.range_runes 0 (String (Utf8.chr (192 + r / 64))
                     (String (Utf8.chr (128 + r mod 64)) rest))
  = r :: Utf8.range_runes 0 rest.
Proof.
  intros Hr. cbn [Utf8.range_runes].
  unfold Utf8.decoderune. rewrite !ord_chr.
  assert ((192 + r / 64) mod 256 = 192 + r / 64) as -> by divmod_lia.
  assert ((128 + r mod 64) mod 256 = 128 + r mod 64) as -> by divmod_lia.
  unfold_consts. arith_bits. arith_lor.
  assert ((192 + r / 64) mod 2 ^ 5 * 2 ^ 6 + (128 + r mod 64) mod 2 ^ 6 = r)
    as -> by divmod_lia.
  decide_tests. cbn [Nat.sub Utf8.range_runes]. reflexivity.
Qed.

Lemma range_runes_3 (r : Z) (rest : string) :
  0x800 <= r <= 0xFFFF -> ~ (0xD800 <= r <= 0xDFFF) ->
  Utf8.range_runes 0 (String (Utf8.chr (224 + r / 4096))
                     (String (Utf8.chr (128 + (r / 64) mod 64))
                     (String (Utf8.chr (128 + r mod 64)) rest)))
  = r :: Utf8.range_runes 0 rest.
Proof.
  intros Hr Hs. cbn [Utf8.range_runes].
  unfold Utf8.decoderune. rewrite !ord_chr.
  assert ((224 + r / 4096) mod 256 = 224 + r / 4096) as -> by divmod_lia.
  assert ((128 + (r / 64) mod 64) mod 256 = 128 + (r / 64) mod 64)
    as -> by divmod_lia.
  assert ((128 + r mod 64) mod 256 = 128 + r mod 64) as -> by divmod_lia.
  unfold_consts. arith_bits. arith_lor.
  assert ((224 + r / 4096) mod 2 ^ 4 * 2 ^ 12
          + (128 + (r / 64) mod 64) mod 2 ^ 6 * 2 ^ 6
          + (128 + r mod 64) mod 2 ^ 6 = r) as -> by divmod_lia.
  decide_tests. cbn [Nat.sub Utf8.range_runes]. reflexivity.
Qed.

Lemma range_runes_4 (r : Z) (rest : string) :
  0x10000 <= r <= 0x10FFFF ->
  Utf8.range_runes 0 (String (Utf8.chr (240 + r / 262144))
                     (String (Utf8.chr (128 + (r / 4096) mod 64))
                     (String (Utf8.chr (128 + (r / 64) mod 64))
                     (String (Utf8.chr (128 + r mod 64)) rest))))
  = r :: Utf8.range_runes 0 rest.
Proof.
  intros Hr. cbn [Utf8.range_runes].
  unfold Utf8.decoderune. rewrite !ord_chr.
  assert ((240 + r / 262144) mod 256 = 240 + r / 262144) as -> by divmod_lia.
  assert ((128 + (r / 4096) mod 64) mod 256 = 128 + (r / 4096) mod 64)
    as -> by divmod_lia.
  assert ((128 + (r / 64) mod 64) mod 256 = 128 + (r / 64) mod 64)
    as -> by divmod_lia.
  assert ((128 + r mod 64) mod 256 = 128 + r mod 64) as -> by divmod_lia.
  unfold_consts. arith_bits. arith_lor.
  assert ((240 + r / 262144) mod 2 ^ 3 * 2 ^ 18
          + (128 + (r / 4096) mod 64) mod 2 ^ 6 * 2 ^ 12
          + (128 + (r / 64) mod 64) mod 2 ^ 6 * 2 ^ 6
          + (128 + r mod 64) mod 2 ^ 6 = r) as -> by divmod_lia.
  decide_tests. cbn [Nat.sub Utf8.range_runes]. reflexivity.
Qed.

(** Decoding what was encoded: a scalar value is read back as itself. *)
Lemma range_runes_encoderune (r : Z) (rest : string) :
  Utf8.scalar r ->
  Utf8.range_runes 0 (Utf8.encoderune r +:+ rest) = r :: Utf8.range_runes 0 rest.
Proof.
  intros [Hr Hs]. unfold_consts.
  destruct (Z.le_gt_cases r 0x7F);
    [rewrite encoderune_1 by lia; apply range_runes_1; lia|].
  destruct (Z.le_gt_cases r 0x7FF);
    [rewrite encoderune_2 by lia; apply range_runes_2; lia|].
  destruct (Z.le_gt_cases r 0xFFFF);
    [rewrite encoderune_3 by lia; apply range_runes_3; lia|].
  rewrite encoderune_4 by lia. apply range_runes_4. lia.
Qed.

Lemma stringtoslicerune_slicerunetostring (rs : list Z) :
  Forall Utf8.scalar rs ->
  Utf8.stringtoslicerune (Utf8.slicerunetostring rs) = rs.
Proof.
  unfold Utf8.stringtoslicerune. induction 1 as [|r rs Hr Hrs IH].
  - reflexivity.
  - cbn [Utf8.slicerunetostring].
    rewrite (range_runes_encoderune r _ Hr), IH. reflexivity.
Qed.

(** The rune a multi-byte sequence assembles to, as arithmetic. *)
Lemma assemble2 (c0 c1 : ascii) :
  Z.lor (Z.shiftl (Z.land (Utf8.ord c0) Utf8.mask2) 6)
        (Z.land (Utf8.ord c1) Utf8.maskx)
  = Utf8.ord c0 mod 32 * 64 + Utf8.ord c1 mod 64.
Proof.
  pose proof (ord_range c0). pose proof (ord_range c1).
  unfold_consts. arith_bits. arith_lor. norm_pow. reflexivity.
Qed.

Lemma assemble3 (c0 c1 c2 : ascii) :
  Z.lor (Z.lor (Z.shiftl (Z.land (Utf8.ord c0) Utf8.mask3) 12)
               (Z.shiftl (Z.land (Utf8.ord c1) Utf8.maskx) 6))
        (Z.land (Utf8.ord c2) Utf8.maskx)
  = Utf8.ord c0 mod 16 * 4096 + Utf8.ord c1 mod 64 * 64 + Utf8.ord c2 mod 64.
Proof.
  pose proof (ord_range c0). pose proof (ord_range c1). pose proof (ord_range c2).
  unfold_consts. arith_bits. arith_lor. norm_pow. reflexivity.
Qed.

Lemma assemble4 (c0 c1 c2 c3 : ascii) :
  Z.lor (Z.lor (Z.lor (Z.shiftl (Z.land (Utf8.ord c0) Utf8.mask4) 18)
                      (Z.shiftl (Z.land (Utf8.ord c1) Utf8.maskx) 12))
               (Z.shiftl (Z.land (Utf8.ord c2) Utf8.maskx) 6))
        (Z.land (Utf8.ord c3) Utf8.maskx)
  = Utf8.ord c0 mod 8 * 262144 + Utf8.ord c1 mod 64 * 4096
    + Utf8.ord c2 mod 64 * 64 + Utf8.ord c3 mod 64.
Proof.
  pose proof (ord_range c0). pose proof (ord_range c1).
  pose proof (ord_range c2). pose proof (ord_range c3).
  unfold_consts. arith_bits. arith_lor. norm_pow. reflexivity.
Qed.

(** Whatever the bytes, [decoderune] yields a scalar value. *)
Lemma decoderune_scalar (s : string) : Utf8.scalar (fst (Utf8.decoderune s)).
Proof.
  assert (Utf8.scalar Utf8.runeError) as Herr.
  { unfold Utf8.scalar. unfold_consts. lia. }
  unfold Utf8.decoderune.
  destruct s as [|c0 [|c1 [|c2 [|c3 rest]]]]; cbv zeta;
    rewrite ?assemble2, ?assemble3, ?assemble4;
    repeat match goal with
           | |- context [if ?b then _ else _] => destruct b eqn:?
           end;
    cbn [fst]; try exact Herr;
    pose proof (ord_range c0); pose proof (ord_range c1);
    unfold Utf8.scalar; unfold_consts; divmod_lia.
Qed.

Lemma range_runes_scalar (s : string) :
  forall skip, Forall Utf8.scalar (Utf8.range_runes skip s).
Proof.
  induction s as [|ch s IH]; intros skip; cbn [Utf8.range_runes].
  - constructor.
  - destruct skip as [|k]; [|apply IH].
    pose proof (decoderune_scalar (String ch s)) as Hdec.
    pose proof (ord_range ch) as Hch.
    destruct (Z.ltb_spec (Utf8.ord ch) Utf8.runeSelf) as [Hlt|Hge].
    + constructor; [|apply IH]. unfold Utf8.scalar. unfold_consts. lia.
    + destruct (Utf8.decoderune (String ch s)) as [r w].
      constructor; [exact Hdec | apply IH].
Qed.

Lemma stringtoslicerune_scalar (s : string) :
  Forall Utf8.scalar (Utf8.stringtoslicerune s).
Proof. apply range_runes_scalar. Qed.

(** Well-formed strings are those the two conversions leave unchanged. *)
Lemma valid_roundtrip (s : string) :
  Utf8.valid s <-> Utf8.slicerunetostring (Utf8.stringtoslicerune s) = s.
Proof.
  split.
  - intros (rs & Hrs & ->).
    rewrite stringtoslicerune_slicerunetostring by exact Hrs. reflexivity.
  - intros H. exists (Utf8.stringtoslicerune s).
    split; [apply stringtoslicerune_scalar | symmetry; exact H].
Qed.

(** ** String reversal *)

Lemma reverseString_reversed (params : gomap) (s : string) :
  map_index params "s" = Some (DString s) ->
  reverseString params = (Some (DString (reversed s)), None).
Proof.
  intros H. unfold reverseString. rewrite H. cbn [assert_string negb].
  rewrite reverse_runes_rev. reflexivity.
Qed.

Lemma stringtoslicerune_reversed (s : string) :
  Utf8.stringtoslicerune (reversed s) = reverse (Utf8.stringtoslicerune s).
Proof.
  unfold reversed. apply stringtoslicerune_slicerunetostring.
  rewrite Forall_reverse. apply stringtoslicerune_scalar.
Qed.

Lemma reversed_reversed (s : string) :
  reversed (reversed s) = Utf8.slicerunetostring (Utf8.stringtoslicerune s).
Proof.
  unfold reversed at 1. rewrite stringtoslicerune_reversed, reverse_involutive.
  reflexivity.
Qed.

(** C10, as the code has it.  On a mapping whose [s] is a string,
    [reverseString] returns a string with the same number of runes; and
    when [s] is well-formed UTF-8 (the empty string and the multi-byte
    strings included), applying the handler to its own output returns
    [s]. *)
Theorem reverseString_involution (params : gomap) (s : string) :
  map_index params "s" = Some (DString s) ->
  exists out,
    reverseString params = (Some (DString out), None) /\
    length (Utf8.stringtoslicerune out) = length (Utf8.stringtoslicerune s) /\
    (Utf8.valid s ->
     reverseString (string_params out) = (Some (DString s), None)).
Proof.
  intros H. exists (reversed s). split; [|split].
  - apply reverseString_reversed, H.
  - rewrite stringtoslicerune_reversed. apply length_reverse.
  - intros Hvalid.
    rewrite (reverseString_reversed (string_params (reversed s)) (reversed s))
      by reflexivity.
    rewrite reversed_reversed. apply valid_roundtrip in Hvalid.
    rewrite Hvalid. reflexivity.
Qed.

Lemma euro_text_valid : Utf8.valid euro_text.
Proof.
  exists [0x61; 0x20AC; 0x62]. split; [|reflexivity].
  repeat constructor; unfold_consts; lia.
Qed.

Lemma reverseString_involution_witness :
  map_index (string_params euro_text) "s" = Some (DString euro_text) /\
  Utf8.valid euro_text /\
  exists out,
    reverseString (string_params euro_text) = (Some (DString out), None) /\
    length (Utf8.stringtoslicerune out)
    = length (Utf8.stringtoslicerune euro_text) /\
    (Utf8.valid euro_text ->
     reverseString (string_params out) = (Some (DString euro_text), None)).
Proof.
  split; [reflexivity|]. split; [exact euro_text_valid|].
  exact (reverseString_involution (string_params euro_text) euro_text eq_refl).
Defined.

(** C10, a counterexample.  Reversing the string FF yields the encoding of
    U+FFFD, and reversing that yields it again, not FF. *)
Lemma reverseString_malformed_not_restored :
  reverseString (string_params byte_ff_text) = (Some (DString fffd_text), None) /\
  reverseString (string_params fffd_text) = (Some (DString fffd_text), None) /\
  String.eqb fffd_text byte_ff_text = false.
Proof. repeat split; vm_compute; reflexivity. Qed.

(** ** The retention window *)

(** Once the clean-up has deleted an id, the next request with that id is
    executed again. *)
Lemma ExecuteMethod_after_expire (now : Z) (s : Service) (req : RPCRequest) :
  Status (snd (ExecuteMethod now (expire s (req_RequestID req)) req))
  <> "DUPLICATE"%string.
Proof.
  apply ExecuteMethod_first. unfold expire. simpl. apply lookup_delete_eq.
Qed.

(** * Further properties *)

(** ** The dispatcher *)

(** The [switch] enters a handler exactly for the seven method names. *)
Lemma dispatch_events (now : Z) (req : RPCRequest) :
  fst (dispatch now req)
  = if known_method (req_Method req)
    then [Invoked (req_Method req) (req_Params req)] else [].
Proof.
  unfold dispatch, known_method.
  repeat (match goal with |- context [String.eqb ?a ?b] => destruct (String.eqb a b) end;
          [reflexivity|]).
  reflexivity.
Qed.

Lemma ExecuteMethod_events (now : Z) (s : Service) (req : RPCRequest) :
  snd (fst (ExecuteMethod now s req)) = []
  \/ snd (fst (ExecuteMethod now s req))
     = [Invoked (req_Method req) (req_Params req)].
Proof.
  unfold ExecuteMethod, LoadOrStore.
  destruct (requestLog s !! req_RequestID req) as [actual|]; simpl; [left; reflexivity|].
  pose proof (dispatch_events now req) as H.
  destruct (dispatch now req) as [evs [result [msg|]]]; simpl in *; subst evs;
    destruct (known_method (req_Method req)); auto.
Qed.

(** The response and the handler entries of a first execution do not
    depend on what else the ledger holds. *)
Lemma ExecuteMethod_first_seen (now : Z) (s : Service) (req : RPCRequest) :
  requestLog s !! req_RequestID req = None ->
  (snd (fst (ExecuteMethod now s req)), snd (ExecuteMethod now s req))
  = (snd (fst (ExecuteMethod now {| requestLog := ∅ |} req)),
     snd (ExecuteMethod now {| requestLog := ∅ |} req)).
Proof.
  intros H. unfold ExecuteMethod, LoadOrStore. rewrite H. simpl.
  rewrite lookup_empty.
  destruct (dispatch now req) as [evs [result [msg|]]]; reflexivity.
Qed.


(** X1. A request for a method outside the [switch], with an id the ledger
    does not hold, is answered ERROR "unknown method: <name>" without
    entering a handler; its id is recorded all the same, so the same
    request sent again to that [Service] is answered DUPLICATE, not with
    the error. *)
Theorem ExecuteMethod_unknown_method (now : Z) (s : Service) (req : RPCRequest) :
  known_method (req_Method req) = false ->
  requestLog s !! req_RequestID req = None ->
  ExecuteMethod now s req
  = ({| requestLog := <[req_RequestID req := true]> (requestLog s) |}, [],
     {| RequestID := req_RequestID req; Result := None;
        Error := "unknown method: " +:+ req_Method req; Status := "ERROR" |})
  /\ ExecuteMethod now (fst (fst (ExecuteMethod now s req))) req
     = (fst (fst (ExecuteMethod now s req)), [],
        duplicate_response (req_RequestID req)).
Proof.
  intros Hm Hnew. 
  assert (ExecuteMethod now s req
  = ({| requestLog := <[req_RequestID req := true]> (requestLog s) |}, [],
     {| RequestID := req_RequestID req; Result := None;
        Error := "unknown method: " +:+ req_Method req; Status := "ERROR" |})) as Heq.
  { unfold ExecuteMethod, LoadOrStore. rewrite Hnew.
    unfold dispatch. unfold known_method in Hm.
    repeat (apply orb_false_elim in Hm as [Hm ?]).
    repeat match goal with H : String.eqb _ _ = false |- _ => rewrite H; clear H end.
    reflexivity. }
  split; [exact Heq|].
  apply ExecuteMethod_seen. apply ExecuteMethod_records.
Qed.

Lemma ExecuteMethod_unknown_method_witness :
  known_method (req_Method sort_request) = false /\
  requestLog {| requestLog := ∅ |} !! req_RequestID sort_request = None /\
  (ExecuteMethod 100 {| requestLog := ∅ |} sort_request
   = ({| requestLog := <[req_RequestID sort_request := true]> ∅ |}, [],
      {| RequestID := req_RequestID sort_request; Result := None;
         Error := "unknown method: " +:+ req_Method sort_request;
         Status := "ERROR" |})
   /\ ExecuteMethod 100 (fst (fst (ExecuteMethod 100 {| requestLog := ∅ |}
                                                 sort_request))) sort_request
      = (fst (fst (ExecuteMethod 100 {| requestLog := ∅ |} sort_request)), [],
         duplicate_response (req_RequestID sort_request))).
Proof.
  split; [reflexivity|]. split; [reflexivity|].
  exact (ExecuteMethod_unknown_method 100 {| requestLog := ∅ |} sort_request
           eq_refl eq_refl).
Defined.

(** X2. What [ExecuteMethod] does to the ledger: afterwards the request's
    id is present (with the value it had, or [true] when it was new), and
    every other id is as before. *)
Theorem ExecuteMethod_ledger (now : Z) (s : Service) (req : RPCRequest) (k : string) :
  requestLog (fst (fst (ExecuteMethod now s req))) !! k
  = if decide (k = req_RequestID req)
    then Some (default true (requestLog s !! req_RequestID req))
    else requestLog s !! k.
Proof.
  unfold ExecuteMethod, LoadOrStore.
  destruct (requestLog s !! req_RequestID req) as [actual|] eqn:H; simpl.
  - case_decide; [subst k; exact H | reflexivity].
  - destruct (dispatch now req) as [evs [result [msg|]]]; simpl;
      (case_decide; [subst k; apply lookup_insert_eq | apply lookup_insert_ne; congruence]).
Qed.

(** X3. One [Service] that sees all the copies of a request within the
    retention window -- the id is new to it, no clean-up goroutine for
    that id is asleep, the first copy comes in second [now] and every
    other copy before second [now + 300], when the deletion started by
    the first is due: exactly one response is not DUPLICATE, every other
    copy is answered DUPLICATE, and at most one handler is entered. *)
Theorem ExecuteMethod_seq_one_execution
        (r : Running) (now : Z) (req : RPCRequest) (calls : list (Z * RPCRequest)) :
  requestLog (ledger r) !! req_RequestID req = None ->
  Forall (fun t => snd t <> req_RequestID req) (sleeping r) ->
  copies_before (req_RequestID req) (now + retention) calls ->
  let '(_, evs, resps) := ExecuteMethod_seq r ((now, req) :: calls) in
  length (filter (fun r => Status r <> "DUPLICATE"%string) resps) = 1%nat /\
  length (filter (fun r => Status r = "DUPLICATE"%string) resps) = length calls /\
  (invocations evs <= 1)%nat.
Proof.
  intros Hnew Hnone Hall.
  pose proof (ExecuteMethod_seq_at_most_once r now req calls Hnew Hnone Hall) as H.
  pose proof (ExecuteMethod_events now (ledger (wake now r)) req) as Hev.
  destruct (ExecuteMethod_seq r ((now, req) :: calls)) as [[r' evs] resps].
  destruct H as (-> & -> & _ & Hfirst).
  assert (forall l : list (Z * RPCRequest),
            filter (fun r => Status r <> "DUPLICATE"%string)
                   (map (fun _ => duplicate_response (req_RequestID req)) l) = []
            /\ filter (fun r => Status r = "DUPLICATE"%string)
                      (map (fun _ => duplicate_response (req_RequestID req)) l)
               = map (fun _ => duplicate_response (req_RequestID req)) l)
    as Hdup.
  { induction l as [|x l [IH1 IH2]]; [split; reflexivity|].
    cbn [map]. rewrite filter_cons_False by (intros Hne; apply Hne; reflexivity).
    rewrite filter_cons_True by reflexivity. rewrite IH1, IH2. split; reflexivity. }
  destruct (Hdup calls) as [Hd1 Hd2].
  rewrite filter_cons_True by exact Hfirst.
  rewrite filter_cons_False by (intros Heq; exact (Hfirst Heq)).
  rewrite Hd1, Hd2, length_map. split; [reflexivity|]. split; [reflexivity|].
  destruct Hev as [-> | ->]; unfold invocations; simpl; lia.
Qed.

Lemma ExecuteMethod_seq_one_execution_witness :
  requestLog (ledger fresh_service) !! req_RequestID add_5_7_request = None /\
  Forall (fun t => snd t <> req_RequestID add_5_7_request) (sleeping fresh_service) /\
  copies_before (req_RequestID add_5_7_request) (100 + retention)
                [(101, add_5_7_request); (399, add_5_7_request)] /\
  snd (ExecuteMethod_seq fresh_service
         [(100, add_5_7_request); (101, add_5_7_request); (399, add_5_7_request)])
  = [ok_12_response; duplicate_response "c1"; duplicate_response "c1"] /\
  let '(_, evs, resps) :=
    ExecuteMethod_seq fresh_service
      ((100, add_5_7_request)
         :: [(101, add_5_7_request); (399, add_5_7_request)]) in
  length (filter (fun r => Status r <> "DUPLICATE"%string) resps) = 1%nat /\
  length (filter (fun r => Status r = "DUPLICATE"%string) resps)
  = length [(101, add_5_7_request); (399, add_5_7_request)] /\
  (invocations evs <= 1)%nat.
Proof.
  assert (copies_before (req_RequestID add_5_7_request) (100 + retention)
                        [(101, add_5_7_request); (399, add_5_7_request)]) as Hall.
  { unfold copies_before, retention.
    apply Forall_cons; split; [split; [reflexivity | simpl; lia]|].
    apply Forall_cons; split; [split; [reflexivity | simpl; lia]|].
    exact (Forall_nil_2 _). }
  split; [reflexivity|]. split; [exact (Forall_nil_2 _)|].
  split; [exact Hall|]. split; [vm_compute; reflexivity|].
  exact (ExecuteMethod_seq_one_execution fresh_service 100 add_5_7_request
           [(101, add_5_7_request); (399, add_5_7_request)]
           eq_refl (Forall_nil_2 _) Hall).
Defined.

(** Past the window the same [Service] executes the request again: the
    copy of second 400 meets the ledger after the deletion due then. *)
Lemma ExecuteMethod_seq_past_retention :
  snd (ExecuteMethod_seq fresh_service
         [(100, add_5_7_request); (399, add_5_7_request); (400, add_5_7_request);
          (401, add_5_7_request)])
  = [ok_12_response; duplicate_response "c1"; ok_12_response;
     duplicate_response "c1"].
Proof. vm_compute. reflexivity. Qed.

(** X4. Eviction: once the clean-up has deleted an id (and nothing but
    that id), a request with it is executed as on an empty ledger -- the
    same handler entries and the same response as a first execution. *)
Theorem ExecuteMethod_evicted (now : Z) (s : Service) (req : RPCRequest) :
  (snd (fst (ExecuteMethod now (expire s (req_RequestID req)) req)),
   snd (ExecuteMethod now (expire s (req_RequestID req)) req))
  = (snd (fst (ExecuteMethod now {| requestLog := ∅ |} req)),
     snd (ExecuteMethod now {| requestLog := ∅ |} req))
  /\ forall k, k <> req_RequestID req ->
               requestLog (expire s (req_RequestID req)) !! k = requestLog s !! k.
Proof.
  split.
  - apply ExecuteMethod_first_seen. unfold expire. simpl. apply lookup_delete_eq.
  - intros k Hk. unfold expire. simpl. apply lookup_delete_ne. congruence.
Qed.

Section DispatcherMore.

Variable json_Unmarshal_request : bytes -> result RPCRequest.
Variable json_Marshal_response : RPCResponse -> result bytes.

(** X5. Whatever the datagram, [handleMessage] hands exactly one buffer to
    [WriteToUDP], as its last step, and enters at most one handler before
    it. *)
Theorem handleMessage_one_response (now : Z) (buffer : bytes) :
  exists (evs : list Event) (data : bytes),
    handleMessage json_Unmarshal_request json_Marshal_response now buffer
    = evs ++ [WriteToUDP data] /\
    (length evs <= 1)%nat /\
    forallb is_invoked evs = true.
Proof.
  unfold handleMessage.
  destruct (ParseInput json_Unmarshal_request buffer) as [req|err].
  - pose proof (ExecuteMethod_events now {| requestLog := ∅ |} req) as Hev.
    destruct (ExecuteMethod now {| requestLog := ∅ |} req) as [[s' evs] resp].
    simpl in Hev.
    destruct (json_Marshal_response resp) as [data|err]; unfold HandleErr;
      eexists evs, _; (split; [reflexivity|]);
      destruct Hev as [-> | ->]; split; simpl; auto.
  - unfold HandleErr. eexists [], _. split; [reflexivity|]. split; simpl; auto.
Qed.

(** X6. A datagram that decodes to a request with an id and no method is
    answered with the ERROR response "error parsing inputs: method is
    required", whose request id is empty: the answer does not carry the
    id the request had. *)
Theorem handleMessage_missing_method (now : Z) (buffer : bytes) (req : RPCRequest) :
  json_Unmarshal_request buffer = Ok req ->
  String.eqb (req_RequestID req) "" = false ->
  req_Method req = ""%string ->
  handleMessage json_Unmarshal_request json_Marshal_response now buffer
  = [WriteToUDP (error_datagram json_Marshal_response
                               "error parsing inputs" "method is required")] /\
  error_response "error parsing inputs" "method is required"
  = {| RequestID := ""; Result := None;
       Error := "error parsing inputs: method is required"; Status := "ERROR" |} /\
  String.eqb (RequestID (error_response "error parsing inputs" "method is required"))
             (req_RequestID req) = false.
Proof.
  intros Hu Hid Hm. unfold handleMessage, ParseInput. rewrite Hu, Hid, Hm. simpl.
  split; [reflexivity|]. split; [reflexivity|].
  destruct (req_RequestID req); [discriminate | reflexivity].
Qed.

End DispatcherMore.

Lemma handleMessage_missing_method_witness :
  calls_Unmarshal_request no_method_datagram = Ok no_method_request /\
  String.eqb (req_RequestID no_method_request) "" = false /\
  req_Method no_method_request = ""%string /\
  error_datagram error_Marshal_response "error parsing inputs" "method is required"
  = list_byte_of_string
      ("{" +:+ quoted "request_id" +:+ ":" +:+ quoted "" +:+ ","
           +:+ quoted "error" +:+ ":"
           +:+ quoted "error parsing inputs: method is required" +:+ ","
           +:+ quoted "status" +:+ ":" +:+ quoted "ERROR" +:+ "}") /\
  (handleMessage calls_Unmarshal_request error_Marshal_response 100
                 no_method_datagram
   = [WriteToUDP (error_datagram error_Marshal_response
                                 "error parsing inputs" "method is required")] /\
   error_response "error parsing inputs" "method is required"
   = {| RequestID := ""; Result := None;
        Error := "error parsing inputs: method is required";
        Status := "ERROR" |} /\
   String.eqb (RequestID (error_response "error parsing inputs"
                                         "method is required"))
              (req_RequestID no_method_request) = false).
Proof.
  assert (calls_Unmarshal_request no_method_datagram = Ok no_method_request)
    as Hu by (vm_compute; reflexivity).
  split; [exact Hu|]. split; [reflexivity|]. split; [reflexivity|].
  split; [vm_compute; reflexivity|].
  exact (handleMessage_missing_method calls_Unmarshal_request
           error_Marshal_response 100 no_method_datagram no_method_request
           Hu eq_refl eq_refl).
Defined.

(** ** The handlers *)

(** X7. The handlers read their own parameters only: a mapping with one
    more key, other than [a], [b] and [s], gets the same answer from the
    arithmetic handlers and from [reverseString]. *)
Theorem handlers_ignore_other_parameters
        (g : gmap string iface) (k : string) (v : iface) :
  k <> "a"%string -> k <> "b"%string -> k <> "s"%string ->
  Forall (fun h : gomap -> iface * error => h (Some (<[k := v]> g)) = h (Some g))
         [add; subtract; multiply; divide; reverseString].
Proof.
  intros Ha Hb Hs.
  assert (forall p, p <> k -> map_index (Some (<[k := v]> g)) p = map_index (Some g) p) as Hidx.
  { intros p Hp. unfold map_index. rewrite lookup_insert_ne by congruence. reflexivity. }
  repeat (apply Forall_cons; split); [..|exact (Forall_nil_2 _)]; cbv beta;
    unfold add, subtract, multiply, divide, reverseString;
    rewrite ?(Hidx "a"%string), ?(Hidx "b"%string), ?(Hidx "s"%string) by congruence;
    reflexivity.
Qed.

Lemma handlers_ignore_other_parameters_witness :
  "c"%string <> "a"%string /\ "c"%string <> "b"%string /\
  "c"%string <> "s"%string /\
  Forall (fun h : gomap -> iface * error =>
            h (Some (<["c"%string := Some (DBool true)]>
                       (<["a"%string := Some (DFloat 5)]>
                          (<["b"%string := Some (DFloat 7)]> ∅))))
            = h (Some (<["a"%string := Some (DFloat 5)]>
                         (<["b"%string := Some (DFloat 7)]> ∅))))
         [add; subtract; multiply; divide; reverseString].
Proof.
  assert ("c"%string <> "a"%string) as Ha by discriminate.
  assert ("c"%string <> "b"%string) as Hb by discriminate.
  assert ("c"%string <> "s"%string) as Hs by discriminate.
  split; [exact Ha|]. split; [exact Hb|]. split; [exact Hs|].
  exact (handlers_ignore_other_parameters _ "c" (Some (DBool true)) Ha Hb Hs).
Defined.

(** The conversions on strings of bytes below [0x80]. *)
Lemma chr_ord (ch : ascii) : Utf8.chr (Utf8.ord ch) = ch.
Proof.
  unfold Utf8.chr. pose proof (ord_range ch) as Hr.
  change 0xFF with (2 ^ 8 - 1). rewrite land_low_bits by lia.
  rewrite Z.mod_small by (change (2 ^ 8) with 256; lia).
  unfold Utf8.ord. rewrite N2Z.id. apply ascii_N_embedding.
Qed.

Lemma stringtoslicerune_ascii (s : string) :
  is_ascii s = true ->
  Utf8.stringtoslicerune s = Utf8.ord <$> list_ascii_of_string s.
Proof.
  unfold Utf8.stringtoslicerune. induction s as [|ch s IH]; intros H.
  - reflexivity.
  - cbn [is_ascii] in H. apply andb_prop in H as [Hch Hs].
    cbn [Utf8.range_runes list_ascii_of_string fmap list_fmap].
    unfold Utf8.runeSelf. rewrite Hch. cbn [Nat.sub]. rewrite (IH Hs). reflexivity.
Qed.

Lemma slicerunetostring_ascii (l : list ascii) :
  Forall (fun ch => Utf8.ord ch < 0x80) l ->
  Utf8.slicerunetostring (Utf8.ord <$> l) = string_of_list_ascii l.
Proof.
  induction 1 as [|ch l Hch Hl IH].
  - reflexivity.
  - cbn [fmap list_fmap Utf8.slicerunetostring string_of_list_ascii].
    change (list_fmap ascii Z Utf8.ord l) with (Utf8.ord <$> l).
    pose proof (ord_range ch).
    rewrite encoderune_1 by lia. rewrite chr_ord, IH. reflexivity.
Qed.

Lemma is_ascii_Forall (s : string) :
  is_ascii s = true ->
  Forall (fun ch => Utf8.ord ch < 0x80) (list_ascii_of_string s).
Proof.
  induction s as [|ch s IH]; intros H; cbn [list_ascii_of_string].
  - constructor.
  - cbn [is_ascii] in H. apply andb_prop in H as [Hch Hs].
    constructor; [lia | apply IH, Hs].
Qed.

(** X8. On a mapping whose [s] is a string, [reverseString] returns the
    string whose runes are those of [s] in reverse order; that string is
    well-formed UTF-8 whatever [s] is; and applying the handler to it
    returns [s] as the two conversions leave it (each malformed byte
    replaced by U+FFFD). *)
Theorem reverseString_reverses_runes (params : gomap) (s : string) :
  map_index params "s" = Some (DString s) ->
  exists out,
    reverseString params = (Some (DString out), None) /\
    Utf8.stringtoslicerune out = reverse (Utf8.stringtoslicerune s) /\
    Utf8.valid out /\
    reverseString (string_params out)
    = (Some (DString (Utf8.slicerunetostring (Utf8.stringtoslicerune s))), None).
Proof.
  intros H. exists (reversed s). split; [|split; [|split]].
  - apply reverseString_reversed, H.
  - apply stringtoslicerune_reversed.
  - exists (reverse (Utf8.stringtoslicerune s)). split; [|reflexivity].
    rewrite Forall_reverse. apply stringtoslicerune_scalar.
  - rewrite (reverseString_reversed (string_params (reversed s)) (reversed s))
      by reflexivity.
    rewrite reversed_reversed. reflexivity.
Qed.

Lemma reverseString_reverses_runes_witness :
  map_index (string_params byte_ff_text) "s" = Some (DString byte_ff_text) /\
  exists out,
    reverseString (string_params byte_ff_text) = (Some (DString out), None) /\
    Utf8.stringtoslicerune out = reverse (Utf8.stringtoslicerune byte_ff_text) /\
    Utf8.valid out /\
    reverseString (string_params out)
    = (Some (DString (Utf8.slicerunetostring
                        (Utf8.stringtoslicerune byte_ff_text))), None).
Proof.
  split; [reflexivity|].
  exact (reverseString_reverses_runes (string_params byte_ff_text) byte_ff_text
           eq_refl).
Defined.

(** X9. On a string of bytes below [0x80], [reverseString] returns the
    bytes in reverse order: [hello] gives [olleh]. *)
Theorem reverseString_ascii (params : gomap) (s : string) :
  map_index params "s" = Some (DString s) ->
  is_ascii s = true ->
  reverseString params = (Some (DString (byte_reverse s)), None).
Proof.
  intros H Hascii. rewrite (reverseString_reversed params s H).
  unfold reversed, byte_reverse.
  rewrite (stringtoslicerune_ascii s Hascii), <- fmap_reverse.
  rewrite slicerunetostring_ascii; [reflexivity|].
  rewrite Forall_reverse. apply is_ascii_Forall, Hascii.
Qed.

Lemma reverseString_ascii_witness :
  map_index (string_params "hello") "s" = Some (DString "hello") /\
  is_ascii "hello" = true /\
  byte_reverse "hello" = "olleh"%string /\
  reverseString (string_params "hello")
  = (Some (DString (byte_reverse "hello")), None).
Proof.
  split; [reflexivity|]. split; [reflexivity|]. split; [reflexivity|].
  exact (reverseString_ascii (string_params "hello") "hello" eq_refl eq_refl).
Defined.

(** ** The call loop *)

Lemma slept_ms_app (evs1 evs2 : list ClientEvent) :
  slept_ms (evs1 ++ evs2) = slept_ms evs1 ++ slept_ms evs2.
Proof. unfold slept_ms. apply omap_app. Qed.

Lemma generateRequestID_nonempty (nano rnd : Z) :
  String.eqb (generateRequestID nano rnd) "" = false.
Proof.
  unfold generateRequestID. destruct (pretty nano); reflexivity.
Qed.

Section CallMore.

Variable json_Marshal_request : RPCRequest -> result bytes.
Variable json_Unmarshal_response : bytes -> result RPCResponse.
Variable Duration_String : Z -> string.
Variable c : RPCClient.
Variable net : Z -> Outcome.

(** X10. With a negative [MaxRetries] the loop has no turn: [Call] sends
    nothing and returns "max retries exceeded: <nil>". *)
Theorem Call_negative_retries
        (env : Readings) (method : string) (params : gomap) (reqData : bytes) :
  json_Marshal_request (call_request env method params) = Ok reqData ->
  MaxRetries c < 0 ->
  Call json_Marshal_request json_Unmarshal_response Duration_String c net
       env method params
  = ((None, Some "max retries exceeded: <nil>"%string), []).
Proof.
  intros Hm Hneg. rewrite (Call_marshalled _ _ _ _ _ _ _ _ _ Hm).
  replace (Z.to_nat (MaxRetries c + 1)) with 0%nat by lia. reflexivity.
Qed.

Lemma attempts_backoff (reqData : bytes) (turns : nat) :
  forall (retry : Z) (lastErr : error),
    retry + Z.of_nat turns = MaxRetries c + 1 ->
    (forall k, retry <= k <= MaxRetries c ->
               definitive json_Unmarshal_response (net k) = None) ->
    slept_ms (snd (attempts json_Unmarshal_response Duration_String c net
                            reqData turns retry lastErr))
    = (fun k => (k + 1) * 500)
        <$> filter (fun k => send_ok (net k) = true)
                   (seqZ retry (Z.of_nat turns - 1)).
Proof.
  induction turns as [|turns IH]; intros retry lastErr Hturns Hnone.
  - reflexivity.
  - rewrite attempts_turn.
    destruct (Z.leb_spec retry (MaxRetries c)); [|lia].
    rewrite (Hnone retry) by lia.
    specialize (IH (retry + 1)
                   (Some (failure json_Unmarshal_response Duration_String c (net retry)))
                   ltac:(lia) ltac:(intros k Hk; apply Hnone; lia)).
    destruct (attempts _ _ _ _ _ _ _ _) as [r evs]. simpl in *.
    change (Sent reqData :: backoff c (net retry) retry ++ evs)
      with ([Sent reqData] ++ backoff c (net retry) retry ++ evs).
    rewrite !slept_ms_app, IH. simpl.
    destruct turns as [|turns].
    + assert (retry = MaxRetries c) as -> by lia.
      unfold backoff. rewrite Z.ltb_irrefl.
      destruct (net (MaxRetries c)); reflexivity.
    + rewrite (seqZ_cons retry) by lia.
      replace (Z.pred (Z.of_nat (S (S turns)) - 1)) with (Z.of_nat (S turns) - 1) by lia.
      replace (Z.succ retry) with (retry + 1) by lia.
      rewrite filter_cons. unfold backoff.
      destruct (Z.ltb_spec retry (MaxRetries c)); [|lia].
      destruct (net retry); simpl; reflexivity.
Qed.

(** X11. The back-off of a call none of whose turns is definitive: a sleep
    of [(retry + 1) * 500] milliseconds follows each turn but the last
    whose send went through, and no sleep follows a failed send or the
    last turn. *)
Theorem Call_backoff_schedule
        (env : Readings) (method : string) (params : gomap) (reqData : bytes) :
  json_Marshal_request (call_request env method params) = Ok reqData ->
  0 <= MaxRetries c ->
  (forall k, 0 <= k <= MaxRetries c ->
             definitive json_Unmarshal_response (net k) = None) ->
  slept_ms (snd (Call json_Marshal_request json_Unmarshal_response
                      Duration_String c net env method params))
  = (fun k => (k + 1) * 500)
      <$> filter (fun k => send_ok (net k) = true) (seqZ 0 (MaxRetries c)).
Proof.
  intros Hm Hmax Hnone. rewrite (Call_marshalled _ _ _ _ _ _ _ _ _ Hm).
  rewrite (attempts_backoff reqData _ 0 None) by (lia || exact Hnone).
  repeat f_equal. lia.
Qed.

Lemma attempts_stop (reqData : bytes) (turns : nat) :
  forall (retry : Z) (lastErr : error) (k : Z) (resp : RPCResponse),
    retry + Z.of_nat turns = MaxRetries c + 1 ->
    retry <= k <= MaxRetries c ->
    (forall i, retry <= i < k -> definitive json_Unmarshal_response (net i) = None) ->
    definitive json_Unmarshal_response (net k) = Some resp ->
    sent_data (snd (attempts json_Unmarshal_response Duration_String c net
                             reqData turns retry lastErr))
    = repeat reqData (Z.to_nat (k - retry + 1)).
Proof.
  induction turns as [|turns IH]; intros retry lastErr k resp Hturns Hk Hnone Hdef.
  - lia.
  - rewrite attempts_turn.
    destruct (Z.leb_spec retry (MaxRetries c)); [|lia].
    destruct (decide (k = retry)) as [->|Hne].
    + rewrite Hdef. replace (retry - retry + 1) with 1 by lia. reflexivity.
    + rewrite (Hnone retry) by lia.
      specialize (IH (retry + 1)
                     (Some (failure json_Unmarshal_response Duration_String c (net retry)))
                     k resp ltac:(lia) ltac:(lia)
                     ltac:(intros i Hi; apply Hnone; lia) Hdef).
      destruct (attempts _ _ _ _ _ _ _ _) as [r evs]. simpl in *.
      unfold sent_data in *. rewrite omap_app.
      replace (omap _ (backoff c (net retry) retry)) with (@nil bytes).
      * simpl. rewrite IH.
        replace (Z.to_nat (k - retry + 1)) with (S (Z.to_nat (k - (retry + 1) + 1))) by lia.
        reflexivity.
      * unfold backoff. destruct (net retry); try reflexivity;
          destruct (retry <? MaxRetries c); reflexivity.
Qed.

(** [Call] sends no more once the [select] of a turn has taken a
    response. *)
Lemma Call_stops_on_net
      (env : Readings) (method : string) (params : gomap) (reqData : bytes)
      (k : Z) (resp : RPCResponse) :
  json_Marshal_request (call_request env method params) = Ok reqData ->
  0 <= k <= MaxRetries c ->
  (forall i, 0 <= i < k -> definitive json_Unmarshal_response (net i) = None) ->
  definitive json_Unmarshal_response (net k) = Some resp ->
  sent_data (snd (Call json_Marshal_request json_Unmarshal_response
                       Duration_String c net env method params))
  = repeat reqData (Z.to_nat (k + 1)).
Proof.
  intros Hm Hk Hnone Hdef. rewrite (Call_marshalled _ _ _ _ _ _ _ _ _ Hm).
  rewrite (attempts_stop reqData _ 0 None k resp) by (lia || assumption).
  f_equal. lia.
Qed.

End CallMore.

Lemma Call_negative_retries_witness :
  example_Marshal_request (call_request example_env "get_time" (Some ∅))
  = Ok get_time_datagram /\
  MaxRetries no_turn_client < 0 /\
  Call example_Marshal_request example_Unmarshal_response
       example_Duration_String no_turn_client silent_net
       example_env "get_time" (Some ∅)
  = ((None, Some "max retries exceeded: <nil>"%string), []).
Proof.
  assert (example_Marshal_request (call_request example_env "get_time" (Some ∅))
          = Ok get_time_datagram) as Hm by (vm_compute; reflexivity).
  assert (MaxRetries no_turn_client < 0) as Hneg by (simpl; lia).
  split; [exact Hm|]. split; [exact Hneg|].
  exact (Call_negative_retries
           example_Marshal_request example_Unmarshal_response
           example_Duration_String no_turn_client silent_net
           example_env "get_time" (Some ∅) get_time_datagram Hm Hneg).
Defined.

Lemma Call_backoff_schedule_witness :
  example_Marshal_request (call_request example_env "get_time" (Some ∅))
  = Ok get_time_datagram /\
  0 <= MaxRetries example_client /\
  slept_ms (snd (Call example_Marshal_request example_Unmarshal_response
                      example_Duration_String example_client silent_net
                      example_env "get_time" (Some ∅)))
  = [500; 1000].
Proof.
  assert (example_Marshal_request (call_request example_env "get_time" (Some ∅))
          = Ok get_time_datagram) as Hm by (vm_compute; reflexivity).
  assert (0 <= MaxRetries example_client) as Hmax by (simpl; lia).
  split; [exact Hm|]. split; [exact Hmax|].
  exact (Call_backoff_schedule
           example_Marshal_request example_Unmarshal_response
           example_Duration_String example_client silent_net
           example_env "get_time" (Some ∅) get_time_datagram Hm Hmax
           (fun k _ => eq_refl)).
Defined.

(** X12. [Call] stops at the first turn whose [select] takes a response.
    On any socket: when turn [k] is the first whose own reader gets a
    datagram -- after the readers in line before it were served -- that
    decodes, the request has been handed to [WriteToUDP] [k + 1] times and
    is sent no more.  A response taken by a reader that an earlier turn
    left in line is no such turn and does not stop the call. *)
Theorem Call_stops_at_select_response
        (json_Marshal_request : RPCRequest -> result bytes)
        (json_Unmarshal_response : bytes -> result RPCResponse)
        (Duration_String : Z -> string) (c : RPCClient)
        (env : Readings) (method : string) (params : gomap) (reqData : bytes)
        (turns : nat -> Turn) (sock : Socket)
        (k : Z) (data : bytes) (resp : RPCResponse) :
  json_Marshal_request (call_request env method params) = Ok reqData ->
  0 <= k <= MaxRetries c ->
  (forall i, 0 <= i < k ->
             definitive json_Unmarshal_response (socket_net turns sock i) = None) ->
  socket_net turns sock k = Datagram data ->
  json_Unmarshal_response data = Ok resp ->
  sent_data (snd (Call json_Marshal_request json_Unmarshal_response
                       Duration_String c (socket_net turns sock)
                       env method params))
  = repeat reqData (Z.to_nat (k + 1)).
Proof.
  intros Hm Hk Hnone Hnet Hdec.
  apply (Call_stops_on_net json_Marshal_request json_Unmarshal_response
           Duration_String c (socket_net turns sock)
           env method params reqData k resp Hm Hk Hnone).
  unfold definitive. rewrite Hnet, Hdec. reflexivity.
Qed.

Lemma Call_stops_at_select_response_witness :
  example_Marshal_request (call_request example_env "echo" (Some ∅))
  = Ok echo_datagram /\
  0 <= 1 <= MaxRetries example_client /\
  socket_net late_after_answer fresh_socket 0 = DeadlineExceeded /\
  both_Unmarshal_response echo_response_datagram = Ok echo_response /\
  taken_by_earlier (socket_before late_after_answer fresh_socket 1)
                   (late_after_answer 1)
  = [Received echo_response_datagram] /\
  socket_net late_after_answer fresh_socket 1 = Datagram late_datagram /\
  both_Unmarshal_response late_datagram = Ok late_response /\
  sent_data (snd (Call example_Marshal_request both_Unmarshal_response
                       example_Duration_String example_client
                       (socket_net late_after_answer fresh_socket)
                       example_env "echo" (Some ∅)))
  = [echo_datagram; echo_datagram].
Proof.
  assert (example_Marshal_request (call_request example_env "echo" (Some ∅))
          = Ok echo_datagram) as Hm by (vm_compute; reflexivity).
  assert (0 <= 1 <= MaxRetries example_client) as Hk by (simpl; lia).
  assert (forall i, 0 <= i < 1 ->
            definitive both_Unmarshal_response
                       (socket_net late_after_answer fresh_socket i) = None)
    as Hnone.
  { intros i Hi. replace i with 0 by lia. reflexivity. }
  assert (socket_net late_after_answer fresh_socket 1 = Datagram late_datagram)
    as Hnet by reflexivity.
  assert (both_Unmarshal_response late_datagram = Ok late_response) as Hdec
      by (vm_compute; reflexivity).
  split; [exact Hm|]. split; [exact Hk|]. split; [reflexivity|].
  split; [vm_compute; reflexivity|]. split; [reflexivity|].
  split; [exact Hnet|]. split; [exact Hdec|].
  exact (Call_stops_at_select_response
           example_Marshal_request both_Unmarshal_response
           example_Duration_String example_client
           example_env "echo" (Some ∅) echo_datagram
           late_after_answer fresh_socket 1 late_datagram late_response
           Hm Hk Hnone Hnet Hdec).
Defined.

(** ** The client and the server together *)

Section EndToEnd.

Variable json_Marshal_request : RPCRequest -> result bytes.
Variable json_Unmarshal_request : bytes -> result RPCRequest.
Variable json_Marshal_response : RPCResponse -> result bytes.
Variable json_Unmarshal_response : bytes -> result RPCResponse.
Variable Duration_String : Z -> string.
Variable c : RPCClient.
Variable net : Z -> Outcome.

(** X13. The request [Call] sends passes the server's validation: its id
    is never empty, so when the method is not empty and the server's
    decoder reads back what the client encoded, [ParseInput] accepts
    it. *)
Theorem Call_request_accepted
        (env : Readings) (method : string) (params : gomap) (reqData : bytes) :
  json_Marshal_request (call_request env method params) = Ok reqData ->
  json_Unmarshal_request reqData = Ok (call_request env method params) ->
  String.eqb method "" = false ->
  ParseInput json_Unmarshal_request reqData = Ok (call_request env method params).
Proof.
  intros Hm Hu Hmethod. unfold ParseInput. rewrite Hu. simpl.
  rewrite generateRequestID_nonempty, Hmethod. reflexivity.
Qed.


End EndToEnd.

Lemma Call_request_accepted_witness :
  example_Marshal_request (call_request example_env "get_time" (Some ∅))
  = Ok get_time_datagram /\
  calls_Unmarshal_request get_time_datagram
  = Ok (call_request example_env "get_time" (Some ∅)) /\
  String.eqb "get_time" "" = false /\
  ParseInput calls_Unmarshal_request get_time_datagram
  = Ok (call_request example_env "get_time" (Some ∅)).
Proof.
  assert (example_Marshal_request (call_request example_env "get_time" (Some ∅))
          = Ok get_time_datagram) as Hm by (vm_compute; reflexivity).
  assert (calls_Unmarshal_request get_time_datagram
          = Ok (call_request example_env "get_time" (Some ∅))) as Hu
    by (vm_compute; reflexivity).
  split; [exact Hm|]. split; [exact Hu|]. split; [reflexivity|].
  exact (Call_request_accepted example_Marshal_request calls_Unmarshal_request
           example_env "get_time" (Some ∅) get_time_datagram Hm Hu eq_refl).
Defined.

